(** * Analise-de-Financas: the data-cleaning and derived-metrics pipeline

    A shallow embedding of [data_processor.py] (class
    [FinancialDataProcessor]) and of the driver [run_analysis] of
    [comparativo.py], with the properties of the design document stated
    over it.

    Conventions of the embedding.
    - Numbers are exact: a float64 in a cell is the decimal [m * 10^e]
      that its text shows, an integer is unbounded, and arithmetic is done
      on rationals ([Q]).  Rounding, overflow and the IEEE infinities are
      outside the model.  The missing value (pandas' NaN) is a value of
      its own, never a number.
    - A DataFrame is the list of its rows, in index order.  The sheet has
      the five columns of [CONFIG["column_names"]] first, so the renaming
      at the head of [clean_data] applies and the tracked columns are
      present; further columns are carried along untouched.
    - Text is ASCII.
    - A Python exception is a value [Raise e] of the [result] type;
      [try]/[except] is a match on it. *)

From Stdlib Require Import ZArith QArith Qpower Qround Qabs Lia Lqa Bool.
From Stdlib Require Import Ascii String DecimalString DecimalZ.
From Stdlib Require Import Sorted.
From stdpp Require Import base list listset.

Local Open Scope Q_scope.

(** ** Numbers *)

(** Python's [x < y] on two finite floats. *)
Definition Qlt_bool (x y : Q) : bool := negb (Qle_bool y x).

(** ** Exceptions *)

Inductive exn : Type :=
| ValueError (msg : string)
| FileNotFoundError (msg : string)
| TypeError (msg : string)
| KeyError (msg : string).

Inductive result (A : Type) : Type :=
| Ok (a : A)
| Raise (e : exn).
Arguments Ok {A} a.
Arguments Raise {A} e.

#[global] Instance result_ret : MRet result := fun A a => Ok a.

#[global] Instance result_bind : MBind result := fun A B k m =>
  match m with
  | Ok a => k a
  | Raise e => Raise e
  end.

(** ** Cells *)

(** What a cell of the sheet holds once pandas has read it: nothing (NaN),
    an integer, a float or text.  A float is kept as the decimal
    [m * 10^e] that its text shows. *)
Inductive cell : Type :=
| CNaN
| CInt (z : Z)
| CFloat (m e : Z)
| CStr (s : string).

(** ** The variation bands, [_classify_variation] *)

Inductive band : Type :=
| HighGrowth        (* "Alto Crescimento" *)
| ModerateGrowth    (* "Crescimento Moderado" *)
| Stable            (* "Estavel" *)
| ModerateDecline   (* "Declinio Moderado" *)
| HighDecline.      (* "Alto Declinio" *)

Definition _classify_variation (percentage : Q) : band :=
  if Qlt_bool 20 percentage then HighGrowth
  else if Qlt_bool 5 percentage then ModerateGrowth
  else if Qlt_bool (-5) percentage then Stable
  else if Qlt_bool (-20) percentage then ModerateDecline
  else HighDecline.

(** The same table as the design document words it (section 4.4): an
    ordered list of strict lower thresholds, first match wins. *)
Definition band_table : list (Q * band) :=
  [(20, HighGrowth); (5, ModerateGrowth); (-5, Stable); (-20, ModerateDecline)].

Fixpoint first_match (table : list (Q * band)) (p : Q) : band :=
  match table with
  | [] => HighDecline
  | (t, b) :: table' => if Qlt_bool t p then b else first_match table' p
  end.

(** ** Rows *)

(** One row of the sheet as read, under the column names of
    [CONFIG["column_names"]]; [rest] holds the columns beyond the fifth. *)
Record SheetRow : Type := mkSheetRow {
  Conta : cell;
  Valor_2024 : cell;
  Perc_2024 : cell;
  Valor_2025 : cell;
  Perc_2025 : cell;
  rest : list cell
}.

(** A row whose two tracked columns hold numbers: [prior] is the
    number in ["Valor_2024"], [current] the one in ["Valor_2025"]. *)
Record Row : Type := mkRow {
  cells : SheetRow;
  prior : Q;
  current : Q
}.

(** A row of the processed table.  The four [..._Formatado] display
    columns are strings built from these values and are left out. *)
Record DerivedRow : Type := mkDerivedRow {
  row : Row;
  Diferenca_RS : Q;        (* "Diferença_R$" *)
  Diferenca_pct : Q;       (* "Diferença_%" *)
  Classificacao : band     (* "Classificação" *)
}.

(** ** [calculate_differences] *)

(** [np.where(cond, x, y)], one position: both [x] and [y] are computed
    before the choice. *)
Definition np_where {A : Type} (cond : bool) (x y : A) : A :=
  if cond then x else y.

Definition differences_of_row (r : Row) : DerivedRow :=
  let diff := current r - prior r in
  let pct := np_where (negb (Qeq_bool (prior r) 0)) ((diff / prior r) * 100) 0 in
  {| row := r;
     Diferenca_RS := diff;
     Diferenca_pct := pct;
     Classificacao := _classify_variation pct |}.

(** The column expressions of the source act on every row alone. *)
Definition calculate_differences (df : list Row) : list DerivedRow :=
  map differences_of_row df.

(** ** Column reductions of pandas *)

(** [Series.sum()]: 0 on the empty column. *)
Definition Qsum (col : list Q) : Q := foldr Qplus 0 col.

(** [Series.mean()]: NaN ([None]) on the empty column. *)
Definition Qmean (col : list Q) : option Q :=
  match col with
  | [] => None
  | _ => Some (Qsum col / inject_Z (Z.of_nat (length col)))
  end.

(** The scan of [argmax]: position and value of the best entry so far;
    a later entry replaces it only when strictly greater. *)
Fixpoint argmax_from (best_i : nat) (best : Q) (i : nat) (col : list Q) : nat * Q :=
  match col with
  | [] => (best_i, best)
  | x :: col' =>
      if Qlt_bool best x then argmax_from i x (S i) col'
      else argmax_from best_i best (S i) col'
  end.

Fixpoint argmin_from (best_i : nat) (best : Q) (i : nat) (col : list Q) : nat * Q :=
  match col with
  | [] => (best_i, best)
  | x :: col' =>
      if Qlt_bool x best then argmin_from i x (S i) col'
      else argmin_from best_i best (S i) col'
  end.

(** [Series.idxmax()] and [Series.idxmin()]: they raise on the empty
    column.  The index is the position in the table. *)
Definition idxmax (col : list Q) : result nat :=
  match col with
  | [] => Raise (ValueError "attempt to get argmax of an empty sequence")
  | x :: col' => Ok (fst (argmax_from 0%nat x 1%nat col'))
  end.

Definition idxmin (col : list Q) : result nat :=
  match col with
  | [] => Raise (ValueError "attempt to get argmin of an empty sequence")
  | x :: col' => Ok (fst (argmin_from 0%nat x 1%nat col'))
  end.

(** [Series.max()] and [Series.min()]: NaN on the empty column. *)
Definition Qmax_col (col : list Q) : option Q :=
  match col with
  | [] => None
  | x :: col' => Some (snd (argmax_from 0%nat x 1%nat col'))
  end.

Definition Qmin_col (col : list Q) : option Q :=
  match col with
  | [] => None
  | x :: col' => Some (snd (argmin_from 0%nat x 1%nat col'))
  end.

(** [df.loc[i, "Conta"]]: the row labels of the table are its positions,
    so the label returned by [idxmax] selects one row. *)
Definition loc_Conta (df : list DerivedRow) (i : nat) : result cell :=
  match df !! i with
  | Some d => Ok (Conta (cells (row d)))
  | None => Raise (KeyError "Conta")
  end.

(** ** [get_summary_statistics] *)

Record Summary : Type := mkSummary {
  total_accounts : nat;
  total_2024 : Q;
  total_2025 : Q;
  total_difference : Q;
  average_growth : option Q;
  positive_variations : nat;
  negative_variations : nat;
  stable_variations : nat;
  max_growth_account : cell;
  max_growth_percentage : option Q;
  max_decline_account : cell;
  max_decline_percentage : option Q
}.

Definition df_empty {A : Type} (df : list A) : bool :=
  match df with [] => true | _ => false end.

(** The body of the [try] block.  The two entries that look a row up are
    the only ones that can raise; they are bound first, the dict is built
    from their results. *)
Definition summary_body (df : list DerivedRow) : result Summary :=
  let pct := map Diferenca_pct df in
  let diff := map Diferenca_RS df in
  growth ← (if negb (df_empty df) then i ← idxmax pct; loc_Conta df i
            else Ok (CStr ""));
  decline ← (if negb (df_empty df) then i ← idxmin pct; loc_Conta df i
             else Ok (CStr ""));
  mret {|
    total_accounts := length df;
    total_2024 := Qsum (map (fun d => prior (row d)) df);
    total_2025 := Qsum (map (fun d => current (row d)) df);
    total_difference := Qsum diff;
    average_growth := Qmean pct;
    positive_variations := length (List.filter (fun x => Qlt_bool 0 x) diff);
    negative_variations := length (List.filter (fun x => Qlt_bool x 0) diff);
    stable_variations := length (List.filter (fun x => Qeq_bool x 0) diff);
    max_growth_account := growth;
    max_growth_percentage := Qmax_col pct;
    max_decline_account := decline;
    max_decline_percentage := Qmin_col pct
  |}.

(** [get_summary_statistics]: an exception inside is logged and the empty
    dict ([None]) is returned. *)
Definition get_summary_statistics (df : list DerivedRow) : option Summary :=
  match summary_body df with
  | Ok summary => Some summary
  | Raise _ => None
  end.

(** ** Text of a cell: [Series.astype(str)] *)

Section text.
Local Open Scope char_scope.
Local Open Scope Z_scope.

Definition is_zero_char (c : ascii) : bool := Ascii.eqb c "0".

Fixpoint drop_zeros (s : list ascii) : list ascii :=
  match s with
  | c :: s' => if is_zero_char c then drop_zeros s' else s
  | [] => []
  end.

(** The decimal digits of a natural number, as Python prints them. *)
Definition digits (n : Z) : list ascii :=
  list_ascii_of_string (NilZero.string_of_uint (N.to_uint (Z.to_N n))).

(** [str(z)] for a Python [int]. *)
Definition int_str (z : Z) : string :=
  NilZero.string_of_int (Z.to_int z).

(** [repr] of the float [m * 10^e]: the significant digits in positional
    notation when the decimal exponent [x] of the leading digit has
    [-4 <= x < 16], in exponent notation (two exponent digits at least)
    otherwise; a whole number ends in [.0]. *)
Definition float_repr (m e : Z) : string :=
  if m =? 0 then "0.0"%string
  else
    let ds := digits (Z.abs m) in
    let sig := rev (drop_zeros (rev ds)) in
    let e' := e + Z.of_nat (length ds - length sig) in
    let n := Z.of_nat (length sig) in
    let x := n - 1 + e' in
    let body :=
      if (-4 <=? x) && (x <? 16) then
        if 0 <=? e' then sig ++ replicate (Z.to_nat e') "0" ++ ["."; "0"]
        else if 0 <=? x then
          take (Z.to_nat (n + e')) sig ++ ["."] ++ drop (Z.to_nat (n + e')) sig
        else ["0"; "."] ++ replicate (Z.to_nat (- x - 1)) "0" ++ sig
      else
        take 1 sig
        ++ (if 1 <? n then ["."] ++ drop 1 sig else [])
        ++ ["e"] ++ [if x <? 0 then "-" else "+"]
        ++ (if Z.abs x <? 10 then ["0"] else []) ++ digits (Z.abs x)
    in
    string_of_list_ascii ((if m <? 0 then ["-"] else []) ++ body).

Definition astype_str (c : cell) : string :=
  match c with
  | CNaN => "nan"%string
  | CInt z => int_str z
  | CFloat m e => float_repr m e
  | CStr s => s
  end.

(** ** [str.replace('[R$.,\s]', '', regex=True)] *)

(** [\s] on the ASCII range: the characters 9 to 13, 28 to 31 and the
    space. *)
Definition is_space (c : ascii) : bool :=
  let n := Z.of_N (N_of_ascii c) in
  ((9 <=? n) && (n <=? 13)) || ((28 <=? n) && (n <=? 31)) || (n =? 32).

(** The character class [[R$.,\s]]. *)
Definition in_class (c : ascii) : bool :=
  Ascii.eqb c "R" || Ascii.eqb c "$" || Ascii.eqb c "." || Ascii.eqb c ","
  || is_space c.

Fixpoint str_replace_class (s : string) : string :=
  match s with
  | EmptyString => EmptyString
  | String c s' =>
      if in_class c then str_replace_class s'
      else String c (str_replace_class s')
  end.

(** ** [pd.to_numeric(..., errors='coerce')] *)

(** What the parser makes of one text: a Python [int] when the numeral
    has neither point nor exponent, a float [m * 10^e], or NaN. *)
Inductive parsed : Type :=
| PInt (z : Z)
| PFloat (m e : Z)
| PNaN.

Definition is_digit (c : ascii) : bool :=
  let n := Z.of_N (N_of_ascii c) in (48 <=? n) && (n <=? 57).

Definition digit_value (c : ascii) : Z := Z.of_N (N_of_ascii c) - 48.

(** The white space the number parser skips: 9 to 13 and the space. *)
Definition isspace_ascii (c : ascii) : bool :=
  let n := Z.of_N (N_of_ascii c) in ((9 <=? n) && (n <=? 13)) || (n =? 32).

Fixpoint skip_space (s : list ascii) : list ascii :=
  match s with
  | c :: s' => if isspace_ascii c then skip_space s' else s
  | [] => []
  end.

(** Reads the longest run of digits: the number read onto [acc], how
    many digits there were, and the text left. *)
Fixpoint read_digits (acc : Z) (count : nat) (s : list ascii)
  : Z * nat * list ascii :=
  match s with
  | c :: s' =>
      if is_digit c then read_digits (acc * 10 + digit_value c) (S count) s'
      else (acc, count, s)
  | [] => (acc, count, [])
  end.

Definition read_sign (s : list ascii) : bool * list ascii :=
  match s with
  | c :: s' =>
      if Ascii.eqb c "-" then (true, s')
      else if Ascii.eqb c "+" then (false, s')
      else (false, s)
  | [] => (false, [])
  end.

Definition signed (negative : bool) (n : Z) : Z := if negative then - n else n.

(** The mantissa: digits with an optional point.  Gives the digits read
    as one number, how many came before and after the point, whether a
    point was seen, and the text left. *)
Definition read_mantissa (s : list ascii) : Z * nat * nat * bool * list ascii :=
  let '(ipart, n1, s1) := read_digits 0 0%nat s in
  match s1 with
  | c :: s2 =>
      if Ascii.eqb c "." then
        let '(m, n2, s3) := read_digits ipart 0%nat s2 in (m, n1, n2, true, s3)
      else (ipart, n1, 0%nat, false, s1)
  | [] => (ipart, n1, 0%nat, false, [])
  end.

(** The exponent: [e] or [E], a sign, digits.  An [e] that no digit
    follows is not consumed. *)
Definition read_exponent (s : list ascii) : Z * bool * list ascii :=
  match s with
  | c :: s1 =>
      if Ascii.eqb c "e" || Ascii.eqb c "E" then
        let '(eneg, s2) := read_sign s1 in
        let '(n, k, s3) := read_digits 0 0%nat s2 in
        if (k =? 0)%nat then (0, true, s) else (signed eneg n, true, s3)
      else (0, false, s)
  | [] => (0, false, [])
  end.

(** The numeral grammar of the parser: white space, a sign, a mantissa
    with one digit at least, an optional exponent, white space, end of
    text. *)
Definition xstrtod (text : list ascii) : option parsed :=
  let '(negative, s) := read_sign (skip_space text) in
  let '(mant, n1, n2, point, s) := read_mantissa s in
  if (n1 + n2 =? 0)%nat then None
  else
    let '(ex, expo, s) := read_exponent s in
    match skip_space s with
    | [] =>
        if point || expo
        then Some (PFloat (signed negative mant) (ex - Z.of_nat n2))
        else Some (PInt (signed negative mant))
    | _ => None
    end.

(** One element under [errors='coerce']: a text that is no numeral gives
    NaN, and so do the empty text and the words [nan], [+nan], [-nan].
    The words [inf] and [infinity], which pandas reads as the IEEE
    infinities, have no rational value and are read as NaN here. *)
Definition parse_number (text : string) : parsed :=
  match xstrtod (list_ascii_of_string text) with
  | Some p => p
  | None => PNaN
  end.

Definition INT64_MIN : Z := - 2 ^ 63.
Definition INT64_MAX : Z := 2 ^ 63 - 1.
Definition UINT64_MAX : Z := 2 ^ 64 - 1.

(** An element that an integer column can hold. *)
Definition fits_integer (p : parsed) : bool :=
  match p with
  | PInt z => (INT64_MIN <=? z) && (z <=? UINT64_MAX)
  | _ => false
  end.

Definition above_int64 (p : parsed) : bool :=
  match p with PInt z => INT64_MAX <? z | _ => false end.

Definition below_zero (p : parsed) : bool :=
  match p with PInt z => z <? 0 | _ => false end.

(** The dtype of the result: an integer column (int64 or uint64) when
    every element is an integer in range and no value above int64 meets a
    negative one, a float64 column otherwise. *)
Definition integer_column (ps : list parsed) : bool :=
  forallb fits_integer ps
  && negb (existsb above_int64 ps && existsb below_zero ps).

Definition as_integer (p : parsed) : cell :=
  match p with
  | PInt z => CInt z
  | PFloat m e => CFloat m e
  | PNaN => CNaN
  end.

Definition as_float (p : parsed) : cell :=
  match p with
  | PInt z => CFloat z 0
  | PFloat m e => CFloat m e
  | PNaN => CNaN
  end.

Definition to_numeric (col : list string) : list cell :=
  let ps := map parse_number col in
  if integer_column ps then map as_integer ps else map as_float ps.

End text.

(** ** [clean_data] *)

(** [CONFIG["value_columns"]]: the two tracked columns. *)
Inductive value_column : Type :=
| col_Valor_2024
| col_Valor_2025.

Definition value_columns : list value_column := [col_Valor_2024; col_Valor_2025].

(** [df[col]] at one row, and the row after [df[col] = ...]. *)
Definition get_col (col : value_column) (r : SheetRow) : cell :=
  match col with
  | col_Valor_2024 => Valor_2024 r
  | col_Valor_2025 => Valor_2025 r
  end.

Definition set_col (col : value_column) (v : cell) (r : SheetRow) : SheetRow :=
  match col with
  | col_Valor_2024 =>
      {| Conta := Conta r; Valor_2024 := v; Perc_2024 := Perc_2024 r;
         Valor_2025 := Valor_2025 r; Perc_2025 := Perc_2025 r; rest := rest r |}
  | col_Valor_2025 =>
      {| Conta := Conta r; Valor_2024 := Valor_2024 r; Perc_2024 := Perc_2024 r;
         Valor_2025 := v; Perc_2025 := Perc_2025 r; rest := rest r |}
  end.

Definition assign_column (col : value_column) (values : list cell)
    (df : list SheetRow) : list SheetRow :=
  zip_with (set_col col) values df.

Definition isna (c : cell) : bool :=
  match c with CNaN => true | _ => false end.

Definition notna (c : cell) : bool := negb (isna c).

Definition row_cells (r : SheetRow) : list cell :=
  Conta r :: Valor_2024 r :: Perc_2024 r :: Valor_2025 r :: Perc_2025 r :: rest r.

(** [df.dropna(how="all")]. *)
Definition dropna_all (df : list SheetRow) : list SheetRow :=
  List.filter (fun r => negb (forallb isna (row_cells r))) df.

(** The text a tracked cell is parsed from, and the converted column. *)
Definition stripped_text (c : cell) : string :=
  str_replace_class (astype_str c).

Definition convert_column (df : list SheetRow) (col : value_column) : list SheetRow :=
  assign_column col (to_numeric (map (fun r => stripped_text (get_col col r)) df)) df.

(** [df[df[col].notna()]]. *)
Definition keep_notna (df : list SheetRow) (col : value_column) : list SheetRow :=
  List.filter (fun r => notna (get_col col r)) df.

(** One cell of [df[value_cols] == 0]. *)
Definition eq_zero (c : cell) : bool :=
  match c with
  | CInt z => (z =? 0)%Z
  | CFloat m _ => (m =? 0)%Z
  | _ => false
  end.

(** [(df[value_cols] == 0).all(axis=1)] at one row. *)
Definition all_zero (r : SheetRow) : bool :=
  forallb (fun col => eq_zero (get_col col r)) value_columns.

Definition clean_data (df : list SheetRow) : list SheetRow :=
  let df_clean := dropna_all df in
  let df_clean := foldl convert_column df_clean value_columns in
  let df_clean := foldl keep_notna df_clean value_columns in
  List.filter (fun r => negb (all_zero r)) df_clean.

(** ** From the cleaned table to numbers *)

(** The number a numeric cell holds. *)
Definition cell_number (c : cell) : option Q :=
  match c with
  | CInt z => Some (inject_Z z)
  | CFloat m e => Some (inject_Z m * 10 ^ e)
  | _ => None
  end.

Definition numeric_row (r : SheetRow) : option Row :=
  p ← cell_number (Valor_2024 r);
  c ← cell_number (Valor_2025 r);
  Some {| cells := r; prior := p; current := c |}.

(** The table with its tracked columns read as numbers; [None] when a
    tracked cell holds no number. *)
Definition numeric_frame (df : list SheetRow) : option (list Row) :=
  mapM numeric_row df.

(** ** [load_data] and [process_complete_pipeline] *)

(** The sheet behind a path: [None] when the file does not exist. *)
Definition load_data (file : option (list SheetRow)) : result (list SheetRow) :=
  match file with
  | None => Raise (FileNotFoundError "Arquivo não encontrado")
  | Some df =>
      if df_empty df then Raise (ValueError "Planilha está vazia") else Ok df
  end.

Definition process_complete_pipeline (file : option (list SheetRow))
  : result (list DerivedRow) :=
  raw_data ← load_data file;
  match numeric_frame (clean_data raw_data) with
  | Some rows => Ok (calculate_differences rows)
  | None => Raise (TypeError "unsupported operand type(s) for -")
  end.

(** ** [FinancialAnalyzer.run_analysis] *)

(** What a run leaves behind, stage by stage. *)
Inductive event : Type :=
| PrintSummary (summary : option Summary)
| SaveExcel (df : list DerivedRow) (saved : bool)
| GenerateReport (df : list DerivedRow) (generated : bool)
| LogError (e : exn).

Section run_analysis.

(** The export and rendering collaborators: each reports success. *)
Variable save_excel : list DerivedRow -> bool.
Variable generate_complete_report : list DerivedRow -> bool.

(** The body of the [try] block: the events so far and how it ended. *)
Definition run_analysis_body (file : option (list SheetRow))
  : list event * result unit :=
  match process_complete_pipeline file with
  | Raise e => ([], Raise e)
  | Ok df =>
      if df_empty df then
        ([], Raise (ValueError "Nenhum dado válido encontrado após processamento"))
      else
        ([PrintSummary (get_summary_statistics df);
          SaveExcel df (save_excel df);
          GenerateReport df (generate_complete_report df)],
         Ok ())
  end.

Definition run_analysis (file : option (list SheetRow)) : list event * bool :=
  match run_analysis_body file with
  | (trace, Ok _) => (trace, true)
  | (trace, Raise e) => (trace ++ [LogError e], false)
  end.

End run_analysis.

(** The extreme rows of a table that is not empty, as the summary reports
    them. *)
Definition extremes_reported (df : list DerivedRow) (s : Summary) : Prop :=
  exists (i k : nat) (g l : DerivedRow),
    df !! i = Some g /\ df !! k = Some l
    /\ max_growth_account s = Conta (cells (row g))
    /\ max_growth_percentage s = Some (Diferenca_pct g)
    /\ max_decline_account s = Conta (cells (row l))
    /\ max_decline_percentage s = Some (Diferenca_pct l)
    /\ (forall j d, df !! j = Some d -> Diferenca_pct d <= Diferenca_pct g)
    /\ (forall j d, (j < i)%nat -> df !! j = Some d -> Diferenca_pct d < Diferenca_pct g)
    /\ (forall j d, df !! j = Some d -> Diferenca_pct l <= Diferenca_pct d)
    /\ (forall j d, (j < k)%nat -> df !! j = Some d -> Diferenca_pct l < Diferenca_pct d).

(** The table after the two conversion loops of [clean_data], before any
    converted row is dropped. *)
Definition normalized (df : list SheetRow) : list SheetRow :=
  foldl convert_column (dropna_all df) value_columns.

(** What [clean_data] asks of a converted row to keep it. *)
Definition survives (r : SheetRow) : bool :=
  notna (Valor_2024 r) && notna (Valor_2025 r) && negb (all_zero r).

(** The cells of a row that [clean_data] never assigns. *)
Definition untracked (r : SheetRow) : cell * cell * cell * list cell :=
  (Conta r, Perc_2024 r, Perc_2025 r, rest r).

Definition is_number (c : cell) : bool :=
  match c with CInt _ | CFloat _ _ => true | _ => false end.

Definition is_int (c : cell) : bool :=
  match c with CInt _ => true | _ => false end.

(** Both tracked columns of the table hold integers. *)
Definition integer_typed (df : list SheetRow) : bool :=
  forallb (fun r => is_int (Valor_2024 r) && is_int (Valor_2025 r)) df.

(** The number a sequence of decimal digits denotes, read onto [acc]
    from the most significant digit on. *)
Fixpoint uint_value (acc : Z) (d : Decimal.uint) : Z :=
  match d with
  | Decimal.Nil => acc
  | Decimal.D0 d' => uint_value (acc * 10 + 0) d'
  | Decimal.D1 d' => uint_value (acc * 10 + 1) d'
  | Decimal.D2 d' => uint_value (acc * 10 + 2) d'
  | Decimal.D3 d' => uint_value (acc * 10 + 3) d'
  | Decimal.D4 d' => uint_value (acc * 10 + 4) d'
  | Decimal.D5 d' => uint_value (acc * 10 + 5) d'
  | Decimal.D6 d' => uint_value (acc * 10 + 6) d'
  | Decimal.D7 d' => uint_value (acc * 10 + 7) d'
  | Decimal.D8 d' => uint_value (acc * 10 + 8) d'
  | Decimal.D9 d' => uint_value (acc * 10 + 9) d'
  end%Z.

(** The characters of a sequence of digits. *)
Definition uint_chars (d : Decimal.uint) : list ascii :=
  list_ascii_of_string (NilEmpty.string_of_uint d).

(** The parser outcome that a converted cell stands for. *)
Definition cell_parsed (c : cell) : parsed :=
  match c with
  | CInt z => PInt z
  | CFloat m e => PFloat m e
  | _ => PNaN
  end.

(** ** Sample tables *)

Section tables.
Local Open Scope string_scope.

(** A sheet row with the two informational percentage cells left blank. *)
Definition sheet_row (conta : string) (v2024 v2025 : cell) : SheetRow :=
  {| Conta := CStr conta; Valor_2024 := v2024; Perc_2024 := CNaN;
     Valor_2025 := v2025; Perc_2025 := CNaN; rest := [] |}.

(** One account whose prior value is written as currency text. *)
Definition sheet_currency : list SheetRow :=
  [sheet_row "Vendas" (CStr "R$ 1.000") (CInt 1200)].

(** Two accounts; the prior value of the second is not available. *)
Definition sheet_blank_prior : list SheetRow :=
  [sheet_row "Vendas" (CInt 100) (CInt 120);
   sheet_row "Outros" (CStr "n/d") (CInt 50)].

(** Integer values only, with a fully blank row and an all-zero row. *)
Definition sheet_integers : list SheetRow :=
  [sheet_row "Vendas" (CInt 100) (CInt 120);
   {| Conta := CNaN; Valor_2024 := CNaN; Perc_2024 := CNaN;
      Valor_2025 := CNaN; Perc_2025 := CNaN; rest := [] |};
   sheet_row "Caixa" (CInt 0) (CInt 0);
   sheet_row "Custos" (CInt (-200)) (CInt (-100))].

(** A sheet whose only account has no movement. *)
Definition sheet_zero : list SheetRow :=
  [sheet_row "Caixa" (CInt 0) (CInt 0)].

(** The scenario of the design document: A (100, 120), B (0, 50),
    C (200, 100). *)
Definition sheet_scenario : list SheetRow :=
  [sheet_row "A" (CInt 100) (CInt 120);
   sheet_row "B" (CInt 0) (CInt 50);
   sheet_row "C" (CInt 200) (CInt 100)].

Definition number_row (conta : string) (v2024 v2025 : Z) : Row :=
  {| cells := sheet_row conta (CInt v2024) (CInt v2025);
     prior := inject_Z v2024; current := inject_Z v2025 |}.

(** Two accounts share the greatest percentage (+10) and two the least
    (-5). *)
Definition table_ties : list DerivedRow :=
  calculate_differences
    [number_row "A" 100 95; number_row "B" 100 110; number_row "C" 200 220;
     number_row "D" 200 190].

End tables.

(** The bands in their order, from the deepest decline up. *)
Definition band_rank (b : band) : nat :=
  match b with
  | HighDecline => 0
  | ModerateDecline => 1
  | Stable => 2
  | ModerateGrowth => 3
  | HighGrowth => 4
  end.

(** A cell holding an integer that int64 can hold. *)
Definition is_int64 (c : cell) : bool :=
  match c with
  | CInt z => (INT64_MIN <=? z)%Z && (z <=? INT64_MAX)%Z
  | _ => false
  end.

(** A sheet whose rows, the fully blank ones apart, hold int64 integers in
    both tracked columns. *)
Definition int64_sheet (df : list SheetRow) : bool :=
  forallb (fun r => is_int64 (Valor_2024 r) && is_int64 (Valor_2025 r))
          (dropna_all df).

Definition is_float (c : cell) : bool :=
  match c with CFloat _ _ => true | _ => false end.

(** ** [utils.py]: [format_currency] and [format_percentage] *)

Section formatting.
Local Open Scope char_scope.
Local Open Scope Z_scope.

(** The nearest integer to a rational that is not negative, a tie going
    to the even one: how the [.2f] conversion rounds a float that holds
    the tie exactly. *)
Definition round_half_even (x : Q) : Z :=
  let f := Qfloor x in
  let r := (x - inject_Z f)%Q in
  if Qlt_bool r (1 # 2) then f
  else if Qlt_bool (1 # 2) r then f + 1
  else if Z.even f then f else f + 1.

(** The amount in hundredths that [.2f] prints for a number, sign apart. *)
Definition cents (q : Q) : Z := round_half_even (Qabs q * 100).

Definition digit_char (k : Z) : ascii := ascii_of_N (Z.to_N (48 + k)).

(** The [,] option of the format: a comma before every group of three
    digits, counted from the right.  [group_rev] works on the digits in
    reverse; [k] is the number of digits to emit before the next comma. *)
Fixpoint group_rev (k : nat) (s : list ascii) : list ascii :=
  match s with
  | [] => []
  | c :: s' =>
      match k with
      | O => "," :: c :: group_rev 2 s'
      | S k' => c :: group_rev k' s'
      end
  end.

Definition group3 (ds : list ascii) : list ascii := rev (group_rev 3 (rev ds)).

(** [f"{q:,.2f}"] ([grouped]) and [f"{q:.2f}"] for a number [q]: a minus
    sign when [q] is negative, the integer part, a point, two digits. *)
Definition fixed2 (grouped : bool) (q : Q) : list ascii :=
  let n := cents q in
  let ipart := digits (n / 100) in
  (if Qlt_bool q 0 then ["-"] else [])
  ++ (if grouped then group3 ipart else ipart)
  ++ ["."; digit_char ((n mod 100) / 10); digit_char ((n mod 100) mod 10)].

(** The format applied to what a cell holds: NaN prints as [nan], and
    text has no [f] conversion. *)
Definition format_2f (grouped : bool) (value : cell) : result (list ascii) :=
  match value with
  | CInt z => Ok (fixed2 grouped (inject_Z z))
  | CFloat m e => Ok (fixed2 grouped (inject_Z m * 10 ^ e)%Q)
  | CNaN => Ok ["n"; "a"; "n"]
  | CStr _ => Raise (ValueError "Unknown format code 'f' for object of type 'str'")
  end.

(** [s.replace(old, new)] for one-character [old] and [new]. *)
Definition str_replace (old new : ascii) (s : list ascii) : list ascii :=
  map (fun c => if Ascii.eqb c old then new else c) s.

Definition format_currency (value : cell) (symbol : string) : string :=
  match format_2f true value with
  | Ok body =>
      string_of_list_ascii
        (str_replace "X" "."
           (str_replace "." ","
              (str_replace "," "X" (list_ascii_of_string symbol ++ [" "] ++ body))))
  | Raise _ => (symbol ++ " 0,00")%string
  end.

Definition format_percentage (value : cell) : string :=
  match format_2f false value with
  | Ok body => string_of_list_ascii (body ++ ["%"])
  | Raise _ => "0,00%"%string
  end.

(** What the three replacements of [format_currency] do to one
    character. *)
Definition swap_char (c : ascii) : ascii :=
  if Ascii.eqb c "," then "."
  else if Ascii.eqb c "." then ","
  else if Ascii.eqb c "X" then "."
  else c.

End formatting.

(** ** [save_excel]: the two top-ten sheets *)

(** The values of a column in sorted order, by insertion: [later x y]
    says that [x] must come after [y]. *)
Fixpoint insert_by (later : Q -> Q -> bool) (x : Q) (l : list Q) : list Q :=
  match l with
  | [] => [x]
  | y :: l' => if later x y then y :: insert_by later x l' else x :: l
  end.

Definition sort_by (later : Q -> Q -> bool) (col : list Q) : list Q :=
  foldr (insert_by later) [] col.

(** The values that [Series.nlargest(n)] and [Series.nsmallest(n)] keep,
    in the order they come out: the [n] greatest in descending order, the
    [n] least in ascending order. *)
Definition nlargest_values (n : nat) (col : list Q) : list Q :=
  take n (sort_by (fun x y => Qlt_bool x y) col).

Definition nsmallest_values (n : nat) (col : list Q) : list Q :=
  take n (sort_by (fun x y => Qlt_bool y x) col).

(** The percentages of the rows of the sheets [Top_Crescimento] and
    [Top_Declinio], from the first row down. *)
Definition top_positive_pct (df : list DerivedRow) : list Q :=
  nlargest_values 10 (map Diferenca_pct df).

Definition top_negative_pct (df : list DerivedRow) : list Q :=
  nsmallest_values 10 (map Diferenca_pct df).

(** ** [utils.py]: [validate_dataframe] *)

#[global] Instance string_eq_dec : EqDecision string := String.string_dec.

(** A frame is given by its column names and its number of rows;
    [df.empty] holds when either axis has length 0.  The second message
    also lists the missing columns in the source; only its fixed part is
    kept. *)
Definition validate_dataframe (columns : list string) (n_rows : nat)
    (required_columns : list string) : result bool :=
  if df_empty columns || (n_rows =? 0)%nat then
    Raise (ValueError "DataFrame está vazio")
  else
    let missing_columns : listset string :=
      list_to_set required_columns ∖ list_to_set columns in
    if negb (df_empty (listset_car missing_columns)) then
      Raise (ValueError "Colunas faltando no DataFrame")
    else Ok true.

(** ** Lemmas *)

Lemma Qlt_bool_iff (x y : Q) : Qlt_bool x y = true <-> x < y.
Proof.
  unfold Qlt_bool. rewrite negb_true_iff, <- not_true_iff_false, Qle_bool_iff.
  split; [apply Qnot_le_lt | apply Qlt_not_le].
Qed.

Lemma Qlt_bool_false_iff (x y : Q) : Qlt_bool x y = false <-> y <= x.
Proof.
  unfold Qlt_bool. rewrite negb_false_iff. apply Qle_bool_iff.
Qed.

#[global] Instance Qlt_bool_proper : Proper (Qeq ==> Qeq ==> eq) Qlt_bool.
Proof.
  intros x x' Hx y y' Hy. unfold Qlt_bool. f_equal.
  apply Qleb_comp; assumption.
Qed.

#[global] Instance classify_variation_proper : Proper (Qeq ==> eq) _classify_variation.
Proof.
  intros p q Hpq. unfold _classify_variation.
  assert (E : forall t, Qlt_bool t p = Qlt_bool t q)
    by (intros t; apply Qlt_bool_proper; [reflexivity | assumption]).
  now rewrite !E.
Qed.

(** Case analysis on one comparison of the cascade. *)
Ltac case_lt t p :=
  let H := fresh "H" in
  destruct (Qlt_bool t p) eqn:H;
  [apply Qlt_bool_iff in H | apply Qlt_bool_false_iff in H].

Lemma classify_first_match (p : Q) :
  _classify_variation p = first_match band_table p.
Proof. reflexivity. Qed.

Lemma classify_HighGrowth (p : Q) :
  _classify_variation p = HighGrowth <-> 20 < p.
Proof.
  unfold _classify_variation.
  case_lt 20 p; [tauto |].
  case_lt 5 p; [split; [discriminate | lra] |].
  case_lt (-5) p; [split; [discriminate | lra] |].
  case_lt (-20) p; split; try discriminate; lra.
Qed.

Lemma classify_ModerateGrowth (p : Q) :
  _classify_variation p = ModerateGrowth <-> 5 < p /\ p <= 20.
Proof.
  unfold _classify_variation.
  case_lt 20 p; [split; [discriminate | lra] |].
  case_lt 5 p; [tauto |].
  case_lt (-5) p; [split; [discriminate | lra] |].
  case_lt (-20) p; split; try discriminate; lra.
Qed.

Lemma classify_Stable (p : Q) :
  _classify_variation p = Stable <-> -5 < p /\ p <= 5.
Proof.
  unfold _classify_variation.
  case_lt 20 p; [split; [discriminate | lra] |].
  case_lt 5 p; [split; [discriminate | lra] |].
  case_lt (-5) p; [tauto |].
  case_lt (-20) p; split; try discriminate; lra.
Qed.

Lemma classify_ModerateDecline (p : Q) :
  _classify_variation p = ModerateDecline <-> -20 < p /\ p <= -5.
Proof.
  unfold _classify_variation.
  case_lt 20 p; [split; [discriminate | lra] |].
  case_lt 5 p; [split; [discriminate | lra] |].
  case_lt (-5) p; [split; [discriminate | lra] |].
  case_lt (-20) p; [tauto | split; [discriminate | lra]].
Qed.

Lemma classify_HighDecline (p : Q) :
  _classify_variation p = HighDecline <-> p <= -20.
Proof.
  unfold _classify_variation.
  case_lt 20 p; [split; [discriminate | lra] |].
  case_lt 5 p; [split; [discriminate | lra] |].
  case_lt (-5) p; [split; [discriminate | lra] |].
  case_lt (-20) p; [split; [discriminate | lra] | tauto].
Qed.

Lemma calculate_differences_classification (df : list Row) (d : DerivedRow) :
  In d (calculate_differences df) ->
  Classificacao d = _classify_variation (Diferenca_pct d).
Proof.
  unfold calculate_differences. rewrite in_map_iff.
  intros (r & <- & _). reflexivity.
Qed.

(** C1. The variation classifier is a function of the percentage alone
    (equal rationals get the same band, and the band stored in every
    processed row is the classifier applied to that row's percentage); it
    returns the first band of the ordered table whose strict threshold the
    percentage exceeds: HighGrowth above 20, ModerateGrowth above 5,
    Stable above -5, ModerateDecline above -20, HighDecline otherwise.
    The boundary values 20, 5, -5 and -20 fall into the lower band. *)
Theorem classify_variation_bands :
  (forall p q : Q, p == q -> _classify_variation p = _classify_variation q)
  /\ (forall (df : list Row) (d : DerivedRow),
        In d (calculate_differences df) ->
        Classificacao d = _classify_variation (Diferenca_pct d))
  /\ (forall p : Q,
        _classify_variation p = first_match band_table p
        /\ (_classify_variation p = HighGrowth <-> 20 < p)
        /\ (_classify_variation p = ModerateGrowth <-> 5 < p /\ p <= 20)
        /\ (_classify_variation p = Stable <-> -5 < p /\ p <= 5)
        /\ (_classify_variation p = ModerateDecline <-> -20 < p /\ p <= -5)
        /\ (_classify_variation p = HighDecline <-> p <= -20))
  /\ _classify_variation 20 = ModerateGrowth
  /\ _classify_variation 5 = Stable
  /\ _classify_variation (-5) = ModerateDecline
  /\ _classify_variation (-20) = HighDecline.
Proof.
  split; [intros p q Hpq; now rewrite Hpq |].
  split; [exact calculate_differences_classification |].
  split; [| repeat split; reflexivity].
  intros p.
  pose proof (classify_first_match p). pose proof (classify_HighGrowth p).
  pose proof (classify_ModerateGrowth p). pose proof (classify_Stable p).
  pose proof (classify_ModerateDecline p). pose proof (classify_HighDecline p).
  tauto.
Qed.

(** *** The delta calculator *)

Lemma differences_of_row_pct_zero (r : Row) :
  prior r == 0 -> Diferenca_pct (differences_of_row r) = 0.
Proof.
  intros H. cbn. now rewrite (Qeq_eq_bool _ _ H).
Qed.

Lemma differences_of_row_pct_nonzero (r : Row) :
  ~ prior r == 0 ->
  Diferenca_pct (differences_of_row r) = ((current r - prior r) / prior r) * 100.
Proof.
  intros H. cbn. destruct (Qeq_bool (prior r) 0) eqn:E; [| reflexivity].
  now apply Qeq_bool_eq in E.
Qed.


(** *** The scans for the extreme rows *)

Lemma argmax_from_spec (col0 col pre : list Q) (bi i : nat) (b : Q) :
  col0 = pre ++ col -> length pre = i ->
  col0 !! bi = Some b ->
  (forall j x, (j < i)%nat -> col0 !! j = Some x -> x <= b) ->
  (forall j x, (j < bi)%nat -> col0 !! j = Some x -> x < b) ->
  let res := argmax_from bi b i col in
  col0 !! fst res = Some (snd res)
  /\ (forall j x, col0 !! j = Some x -> x <= snd res)
  /\ (forall j x, (j < fst res)%nat -> col0 !! j = Some x -> x < snd res).
Proof.
  revert pre bi i b. induction col as [| y col IH]; intros pre bi i b E Hlen Hb Hle Hlt.
  - cbn. split; [assumption |]. split; [| assumption].
    intros j x Hj. apply (Hle j); [| assumption].
    apply lookup_lt_Some in Hj. rewrite E, length_app in Hj. cbn in Hj. lia.
  - assert (Hy : col0 !! i = Some y)
      by (rewrite E, <- Hlen; apply list_lookup_middle; reflexivity).
    cbn [argmax_from].
    destruct (Qlt_bool b y) eqn:C;
      [apply Qlt_bool_iff in C | apply Qlt_bool_false_iff in C];
      apply (IH (pre ++ [y])); try assumption;
      try (rewrite <- app_assoc; assumption);
      try (rewrite length_app; cbn; lia).
    + intros j x Hj Hx. destruct (decide (j = i)) as [-> | Hne].
      * rewrite Hy in Hx. injection Hx as <-. lra.
      * assert (x <= b) by (apply (Hle j); [lia | assumption]). lra.
    + intros j x Hj Hx.
      assert (x <= b) by (apply (Hle j); [lia | assumption]). lra.
    + intros j x Hj Hx. destruct (decide (j = i)) as [-> | Hne].
      * rewrite Hy in Hx. injection Hx as <-. assumption.
      * apply (Hle j); [lia | assumption].
Qed.

Lemma argmin_from_spec (col0 col pre : list Q) (bi i : nat) (b : Q) :
  col0 = pre ++ col -> length pre = i ->
  col0 !! bi = Some b ->
  (forall j x, (j < i)%nat -> col0 !! j = Some x -> b <= x) ->
  (forall j x, (j < bi)%nat -> col0 !! j = Some x -> b < x) ->
  let res := argmin_from bi b i col in
  col0 !! fst res = Some (snd res)
  /\ (forall j x, col0 !! j = Some x -> snd res <= x)
  /\ (forall j x, (j < fst res)%nat -> col0 !! j = Some x -> snd res < x).
Proof.
  revert pre bi i b. induction col as [| y col IH]; intros pre bi i b E Hlen Hb Hle Hlt.
  - cbn. split; [assumption |]. split; [| assumption].
    intros j x Hj. apply (Hle j); [| assumption].
    apply lookup_lt_Some in Hj. rewrite E, length_app in Hj. cbn in Hj. lia.
  - assert (Hy : col0 !! i = Some y)
      by (rewrite E, <- Hlen; apply list_lookup_middle; reflexivity).
    cbn [argmin_from].
    destruct (Qlt_bool y b) eqn:C;
      [apply Qlt_bool_iff in C | apply Qlt_bool_false_iff in C];
      apply (IH (pre ++ [y])); try assumption;
      try (rewrite <- app_assoc; assumption);
      try (rewrite length_app; cbn; lia).
    + intros j x Hj Hx. destruct (decide (j = i)) as [-> | Hne].
      * rewrite Hy in Hx. injection Hx as <-. lra.
      * assert (b <= x) by (apply (Hle j); [lia | assumption]). lra.
    + intros j x Hj Hx.
      assert (b <= x) by (apply (Hle j); [lia | assumption]). lra.
    + intros j x Hj Hx. destruct (decide (j = i)) as [-> | Hne].
      * rewrite Hy in Hx. injection Hx as <-. assumption.
      * apply (Hle j); [lia | assumption].
Qed.

(** On a column that is not empty [idxmax] returns the first position of
    the greatest value, which is what [max] returns. *)
Lemma idxmax_first (x : Q) (col : list Q) :
  exists i v,
    idxmax (x :: col) = Ok i /\ Qmax_col (x :: col) = Some v
    /\ (x :: col) !! i = Some v
    /\ (forall j y, (x :: col) !! j = Some y -> y <= v)
    /\ (forall j y, (j < i)%nat -> (x :: col) !! j = Some y -> y < v).
Proof.
  exists (fst (argmax_from 0%nat x 1%nat col)), (snd (argmax_from 0%nat x 1%nat col)).
  split; [reflexivity |]. split; [reflexivity |].
  apply (argmax_from_spec (x :: col) col [x]); try reflexivity.
  - intros j y Hj Hy. assert (j = 0%nat) as -> by lia.
    injection Hy as <-. lra.
  - intros j y Hj. lia.
Qed.

Lemma idxmin_first (x : Q) (col : list Q) :
  exists i v,
    idxmin (x :: col) = Ok i /\ Qmin_col (x :: col) = Some v
    /\ (x :: col) !! i = Some v
    /\ (forall j y, (x :: col) !! j = Some y -> v <= y)
    /\ (forall j y, (j < i)%nat -> (x :: col) !! j = Some y -> v < y).
Proof.
  exists (fst (argmin_from 0%nat x 1%nat col)), (snd (argmin_from 0%nat x 1%nat col)).
  split; [reflexivity |]. split; [reflexivity |].
  apply (argmin_from_spec (x :: col) col [x]); try reflexivity.
  - intros j y Hj Hy. assert (j = 0%nat) as -> by lia.
    injection Hy as <-. lra.
  - intros j y Hj. lia.
Qed.

(** *** The summary aggregator *)

Lemma lookup_map {A B : Type} (f : A -> B) (l : list A) (i : nat) :
  map f l !! i = f <$> (l !! i).
Proof. apply (list_lookup_fmap f l i). Qed.

Lemma lookup_map_Some {A B : Type} (f : A -> B) (l : list A) (i : nat) (y : B) :
  map f l !! i = Some y -> exists x, l !! i = Some x /\ y = f x.
Proof.
  rewrite lookup_map. destruct (l !! i) as [x |]; [| discriminate].
  intros [= <-]. now exists x.
Qed.

Lemma summary_body_nonempty (d0 : DerivedRow) (df : list DerivedRow) :
  exists s, summary_body (d0 :: df) = Ok s /\ extremes_reported (d0 :: df) s.
Proof.
  destruct (idxmax_first (Diferenca_pct d0) (map Diferenca_pct df))
    as (i & v & Hi & Hv & Hiv & Hmax & Hfirst).
  destruct (idxmin_first (Diferenca_pct d0) (map Diferenca_pct df))
    as (k & w & Hk & Hw & Hkw & Hmin & Hlast).
  change (Diferenca_pct d0 :: map Diferenca_pct df)
    with (map Diferenca_pct (d0 :: df)) in *.
  destruct (lookup_map_Some _ _ _ _ Hiv) as (g & Hg & ->).
  destruct (lookup_map_Some _ _ _ _ Hkw) as (l & Hl & ->).
  unfold summary_body. cbn [df_empty negb].
  rewrite Hi, Hk. cbn [mbind result_bind]. unfold loc_Conta. rewrite Hg, Hl.
  cbn [mbind result_bind mret result_ret]. eexists. split; [reflexivity |].
  exists i, k, g, l. cbn [max_growth_account max_growth_percentage
    max_decline_account max_decline_percentage].
  repeat split; try assumption.
  - intros j d Hd. apply (Hmax j). now rewrite lookup_map, Hd.
  - intros j d Hj Hd. apply (Hfirst j); [assumption |]. now rewrite lookup_map, Hd.
  - intros j d Hd. apply (Hmin j). now rewrite lookup_map, Hd.
  - intros j d Hj Hd. apply (Hlast j); [assumption |]. now rewrite lookup_map, Hd.
Qed.

(** The summary of the empty table: nothing raises, the account names are
    empty texts and the mean and the extremes are NaN. *)
Lemma summary_body_empty :
  summary_body [] =
  Ok {| total_accounts := 0; total_2024 := 0; total_2025 := 0;
        total_difference := 0; average_growth := None;
        positive_variations := 0; negative_variations := 0;
        stable_variations := 0;
        max_growth_account := CStr ""; max_growth_percentage := None;
        max_decline_account := CStr ""; max_decline_percentage := None |}.
Proof. reflexivity. Qed.

(** The aggregator returns a summary on every table: its [except] branch
    is never taken. *)
Lemma get_summary_statistics_total (df : list DerivedRow) :
  exists s, summary_body df = Ok s /\ get_summary_statistics df = Some s.
Proof.
  unfold get_summary_statistics. destruct df as [| d0 df].
  - rewrite summary_body_empty. eauto.
  - destruct (summary_body_nonempty d0 df) as (s & -> & _). eauto.
Qed.

(** What the summary holds besides the extreme rows. *)
Lemma summary_body_fields (df : list DerivedRow) (s : Summary) :
  summary_body df = Ok s ->
  total_accounts s = length df
  /\ total_2024 s = Qsum (map (fun d => prior (row d)) df)
  /\ total_2025 s = Qsum (map (fun d => current (row d)) df)
  /\ total_difference s = Qsum (map Diferenca_RS df)
  /\ average_growth s = Qmean (map Diferenca_pct df)
  /\ positive_variations s
     = length (List.filter (fun x => Qlt_bool 0 x) (map Diferenca_RS df))
  /\ negative_variations s
     = length (List.filter (fun x => Qlt_bool x 0) (map Diferenca_RS df))
  /\ stable_variations s
     = length (List.filter (fun x => Qeq_bool x 0) (map Diferenca_RS df)).
Proof.
  unfold summary_body, mbind, result_bind, mret, result_ret.
  destruct (if negb (df_empty df) then _ else _) as [g |]; [| discriminate].
  destruct (if negb (df_empty df) then _ else _) as [l |]; [| discriminate].
  intros [= <-]. cbn. repeat split.
Qed.

Lemma sign_trichotomy (x : Q) :
  (Qlt_bool 0 x = true /\ Qlt_bool x 0 = false /\ Qeq_bool x 0 = false)
  \/ (Qlt_bool 0 x = false /\ Qlt_bool x 0 = true /\ Qeq_bool x 0 = false)
  \/ (Qlt_bool 0 x = false /\ Qlt_bool x 0 = false /\ Qeq_bool x 0 = true).
Proof.
  destruct (Qlt_bool 0 x) eqn:P; destruct (Qlt_bool x 0) eqn:N;
    destruct (Qeq_bool x 0) eqn:Z; auto;
    try apply Qlt_bool_iff in P; try apply Qlt_bool_false_iff in P;
    try apply Qlt_bool_iff in N; try apply Qlt_bool_false_iff in N;
    try apply Qeq_bool_eq in Z; try apply Qeq_bool_neq in Z;
    exfalso; lra.
Qed.

Lemma sign_counts (col : list Q) :
  (length (List.filter (fun x => Qlt_bool 0 x) col)
   + length (List.filter (fun x => Qlt_bool x 0) col)
   + length (List.filter (fun x => Qeq_bool x 0) col))%nat
  = length col.
Proof.
  induction col as [| x col IH]; [reflexivity |].
  cbn [List.filter].
  destruct (sign_trichotomy x) as [(-> & -> & ->) | [(-> & -> & ->) | (-> & -> & ->)]];
    cbn [length]; lia.
Qed.

Lemma totals_of_differences (df : list Row) :
  Qsum (map (fun d => current (row d)) (calculate_differences df))
  - Qsum (map (fun d => prior (row d)) (calculate_differences df))
  == Qsum (map Diferenca_RS (calculate_differences df)).
Proof.
  unfold calculate_differences, Qsum.
  induction df as [| r df IH]; cbn [map foldr]; [lra |].
  cbn [differences_of_row row current prior Diferenca_RS]. lra.
Qed.




(** *** The driver and the empty table *)

Lemma pipeline_of_empty_clean (raw : list SheetRow) :
  clean_data raw = [] ->
  process_complete_pipeline (Some raw) = Ok []
  \/ exists msg, process_complete_pipeline (Some raw) = Raise (ValueError msg).
Proof.
  intros Hclean. unfold process_complete_pipeline, load_data.
  destruct raw as [| r raw]; cbn [df_empty mbind result_bind].
  - right. eexists. reflexivity.
  - left. rewrite Hclean. reflexivity.
Qed.

(** C3, as the code has it.  When no row survives the cleaning stage,
    [run_analysis] fails with a [ValueError] before the Summary Aggregator,
    the export and the rendering are reached: the only event of the run is
    the logged error, and the run returns [False].  The Summary Aggregator
    itself does not signal an empty table: it returns a summary with zero
    counts and totals, empty account names and NaN mean and extremes. *)
Theorem empty_result_aborts_run
    (save_excel generate_complete_report : list DerivedRow -> bool)
    (raw : list SheetRow) :
  clean_data raw = [] ->
  (exists msg,
     run_analysis save_excel generate_complete_report (Some raw)
     = ([LogError (ValueError msg)], false))
  /\ get_summary_statistics [] =
     Some {| total_accounts := 0; total_2024 := 0; total_2025 := 0;
             total_difference := 0; average_growth := None;
             positive_variations := 0; negative_variations := 0;
             stable_variations := 0;
             max_growth_account := CStr ""; max_growth_percentage := None;
             max_decline_account := CStr ""; max_decline_percentage := None |}.
Proof.
  intros Hclean. split; [| reflexivity].
  unfold run_analysis, run_analysis_body.
  destruct (pipeline_of_empty_clean raw Hclean) as [-> | (msg & ->)];
    cbn; eexists; reflexivity.
Qed.

(** *** The conversion of a column *)

Lemma length_to_numeric (col : list string) :
  length (to_numeric col) = length col.
Proof.
  unfold to_numeric. destruct (integer_column _); now rewrite !length_map.
Qed.

Lemma as_integer_not_str (p : parsed) : is_number (as_integer p) || isna (as_integer p) = true.
Proof. now destruct p. Qed.

Lemma as_float_not_str (p : parsed) : is_number (as_float p) || isna (as_float p) = true.
Proof. now destruct p. Qed.

(** Every converted cell is a number or NaN, never text. *)
Lemma to_numeric_number_or_nan (col : list string) (c : cell) :
  In c (to_numeric col) -> is_number c || isna c = true.
Proof.
  unfold to_numeric. destruct (integer_column _); rewrite in_map_iff;
    intros (p & <- & _); [apply as_integer_not_str | apply as_float_not_str].
Qed.

Lemma get_set_same (col : value_column) (v : cell) (r : SheetRow) :
  get_col col (set_col col v r) = v.
Proof. now destruct col. Qed.

Lemma get_set_other (col col' : value_column) (v : cell) (r : SheetRow) :
  col <> col' -> get_col col' (set_col col v r) = get_col col' r.
Proof. destruct col, col'; cbn; congruence. Qed.

Lemma set_get_same (col : value_column) (r : SheetRow) :
  set_col col (get_col col r) r = r.
Proof. now destruct col, r. Qed.

Lemma untracked_set_col (col : value_column) (v : cell) (r : SheetRow) :
  untracked (set_col col v r) = untracked r.
Proof. now destruct col. Qed.

Lemma length_assign_column (col : value_column) (values : list cell) (df : list SheetRow) :
  length values = length df ->
  length (assign_column col values df) = length df.
Proof.
  revert df. induction values as [| v values IH]; intros [| r df] H;
    cbn in *; try congruence. f_equal. apply IH. lia.
Qed.

Lemma map_assign_column_same (col : value_column) (values : list cell) (df : list SheetRow) :
  length values = length df ->
  map (get_col col) (assign_column col values df) = values.
Proof.
  revert df. induction values as [| v values IH]; intros [| r df] H;
    cbn in *; try congruence.
  rewrite get_set_same. f_equal. apply IH. lia.
Qed.

Lemma map_assign_column_frame {B : Type} (f : SheetRow -> B)
    (col : value_column) (values : list cell) (df : list SheetRow) :
  (forall v r, f (set_col col v r) = f r) ->
  length values = length df ->
  map f (assign_column col values df) = map f df.
Proof.
  intros Hf. revert df. induction values as [| v values IH]; intros [| r df] H;
    cbn in *; try congruence.
  rewrite Hf. f_equal. apply IH. lia.
Qed.

Lemma length_convert_column (df : list SheetRow) (col : value_column) :
  length (convert_column df col) = length df.
Proof.
  unfold convert_column. apply length_assign_column.
  now rewrite length_to_numeric, length_map.
Qed.

Lemma convert_column_same (df : list SheetRow) (col : value_column) :
  map (get_col col) (convert_column df col)
  = to_numeric (map (fun r => stripped_text (get_col col r)) df).
Proof.
  unfold convert_column. apply map_assign_column_same.
  now rewrite length_to_numeric, length_map.
Qed.

Lemma convert_column_other (df : list SheetRow) (col col' : value_column) :
  col <> col' ->
  map (get_col col') (convert_column df col) = map (get_col col') df.
Proof.
  intros Hne. unfold convert_column. apply map_assign_column_frame.
  - intros v r. now apply get_set_other.
  - now rewrite length_to_numeric, length_map.
Qed.

Lemma convert_column_untracked (df : list SheetRow) (col : value_column) :
  map untracked (convert_column df col) = map untracked df.
Proof.
  unfold convert_column. apply map_assign_column_frame.
  - intros v r. apply untracked_set_col.
  - now rewrite length_to_numeric, length_map.
Qed.

(** The two tracked columns of the converted table. *)
Lemma normalized_Valor_2024 (df : list SheetRow) :
  map Valor_2024 (normalized df)
  = to_numeric (map (fun r => stripped_text (Valor_2024 r)) (dropna_all df)).
Proof.
  unfold normalized. cbn [foldl value_columns].
  change Valor_2024 with (get_col col_Valor_2024).
  rewrite convert_column_other by discriminate.
  apply convert_column_same.
Qed.

Lemma normalized_Valor_2025 (df : list SheetRow) :
  map Valor_2025 (normalized df)
  = to_numeric (map (fun r => stripped_text (Valor_2025 r)) (dropna_all df)).
Proof.
  unfold normalized. cbn [foldl value_columns].
  change Valor_2025 with (get_col col_Valor_2025).
  rewrite convert_column_same. f_equal.
  change (fun r => stripped_text (get_col col_Valor_2025 r))
    with (fun r => stripped_text ((get_col col_Valor_2025) r)).
  rewrite <- (map_map (get_col col_Valor_2025) stripped_text).
  rewrite convert_column_other by discriminate.
  now rewrite map_map.
Qed.

Lemma normalized_untracked (df : list SheetRow) :
  map untracked (normalized df) = map untracked (dropna_all df).
Proof.
  unfold normalized. cbn [foldl value_columns].
  now rewrite !convert_column_untracked.
Qed.

Lemma length_normalized (df : list SheetRow) :
  length (normalized df) = length (dropna_all df).
Proof.
  unfold normalized. cbn [foldl value_columns].
  now rewrite !length_convert_column.
Qed.

Lemma normalized_number_or_nan (df : list SheetRow) (r : SheetRow) :
  In r (normalized df) ->
  is_number (Valor_2024 r) || isna (Valor_2024 r) = true
  /\ is_number (Valor_2025 r) || isna (Valor_2025 r) = true.
Proof.
  intros Hr. split.
  - apply (to_numeric_number_or_nan
             (map (fun r => stripped_text (Valor_2024 r)) (dropna_all df))).
    rewrite <- normalized_Valor_2024. now apply in_map.
  - apply (to_numeric_number_or_nan
             (map (fun r => stripped_text (Valor_2025 r)) (dropna_all df))).
    rewrite <- normalized_Valor_2025. now apply in_map.
Qed.

(** *** The filter *)

Lemma filter_filter_andb {A : Type} (p q : A -> bool) (l : list A) :
  List.filter q (List.filter p l) = List.filter (fun x => p x && q x) l.
Proof.
  induction l as [| x l IH]; [reflexivity |].
  cbn. destruct (p x); cbn; [destruct (q x) |]; now rewrite IH.
Qed.

Lemma sublist_List_filter {A : Type} (p : A -> bool) (l : list A) :
  sublist (List.filter p l) l.
Proof.
  induction l as [| x l IH]; cbn; [constructor |].
  destruct (p x); now constructor.
Qed.

(** [clean_data] is one filter over the converted table. *)
Lemma clean_data_filter (df : list SheetRow) :
  clean_data df = List.filter survives (normalized df).
Proof.
  unfold clean_data, normalized. cbn [foldl value_columns].
  unfold keep_notna. rewrite !filter_filter_andb.
  apply List.filter_ext. intros r. unfold survives. cbn [get_col].
  now rewrite andb_assoc.
Qed.

(** *** Digits and numerals *)

Section numerals.
Local Open Scope char_scope.
Local Open Scope Z_scope.

Lemma read_digits_uint (d : Decimal.uint) (acc : Z) (k : nat) (tail : list ascii) :
  read_digits acc k (uint_chars d ++ tail)
  = read_digits (uint_value acc d) (k + Decimal.nb_digits d) tail.
Proof.
  revert acc k. unfold uint_chars.
  induction d as [| d IH | d IH | d IH | d IH | d IH | d IH | d IH | d IH | d IH | d IH];
    intros acc k.
  1: { cbn. f_equal. lia. }
  all: cbn [NilEmpty.string_of_uint list_ascii_of_string app read_digits uint_value
            Decimal.nb_digits];
    match goal with |- context [is_digit ?c] =>
      change (is_digit c) with true; cbv iota end;
    rewrite IH; f_equal; unfold digit_value; cbn; lia.
Qed.

Lemma uint_value_acc (d : Decimal.uint) (p : positive) :
  uint_value (Z.pos p) d = Z.pos (Pos.of_uint_acc d p).
Proof.
  revert p. induction d; intros p; cbn [uint_value Pos.of_uint_acc].
  1: reflexivity.
  all: rewrite <- IHd; f_equal; lia.
Qed.

Lemma uint_value_of_uint (d : Decimal.uint) :
  uint_value 0 d = Z.of_N (Pos.of_uint d).
Proof.
  induction d; cbn [uint_value Pos.of_uint].
  1: reflexivity.
  1: exact IHd.
  all: apply uint_value_acc.
Qed.

Lemma uint_value_to_uint (p : positive) :
  uint_value 0 (Pos.to_uint p) = Z.pos p.
Proof.
  now rewrite uint_value_of_uint, DecimalPos.Unsigned.of_to.
Qed.
End numerals.

Section numerals_parsed.
Local Open Scope char_scope.
Local Open Scope Z_scope.

(** A digit is none of the characters the grammar gives a role to, and
    none of the class the regular expression deletes. *)
Lemma digit_is_plain (c : ascii) :
  is_digit c = true ->
  isspace_ascii c = false /\ in_class c = false
  /\ Ascii.eqb c "-" = false /\ Ascii.eqb c "+" = false.
Proof.
  destruct c as [[] [] [] [] [] [] [] []]; vm_compute; intros H;
    first [discriminate H | repeat split].
Qed.

Lemma uint_chars_digits (d : Decimal.uint) :
  Forall (fun c => is_digit c = true) (uint_chars d).
Proof.
  unfold uint_chars. induction d; cbn; constructor; auto.
Qed.

Lemma read_digits_count (s : list ascii) (acc : Z) (k : nat) :
  (k <= snd (fst (read_digits acc k s)))%nat.
Proof.
  revert acc k. induction s as [| c s IH]; intros acc k; cbn; [lia |].
  destruct (is_digit c); cbn; [| lia].
  specialize (IH (acc * 10 + digit_value c) (S k)). lia.
Qed.

(** A text made of digits only is read as the integer they denote, with
    or without a minus sign in front. *)
Lemma xstrtod_digits (c : ascii) (s : list ascii) (v : Z) (n : nat) :
  is_digit c = true ->
  read_digits 0 0%nat (c :: s) = (v, n, []) ->
  xstrtod (c :: s) = Some (PInt v)
  /\ xstrtod ("-" :: c :: s) = Some (PInt (- v)).
Proof.
  intros Hc Hread.
  destruct (digit_is_plain c Hc) as (Hsp & _ & Hminus & Hplus).
  assert (Hn : (n =? 0)%nat = false).
  { apply Nat.eqb_neq. pose proof (read_digits_count s (0 * 10 + digit_value c) 1) as Hk.
    cbn [read_digits] in Hread. rewrite Hc in Hread. rewrite Hread in Hk.
    cbn in Hk. lia. }
  split; unfold xstrtod.
  - cbn [skip_space]. rewrite Hsp. cbn [read_sign]. rewrite Hminus, Hplus.
    unfold read_mantissa. rewrite Hread. cbn [read_exponent skip_space].
    rewrite Nat.add_0_r, Hn. reflexivity.
  - change (skip_space ("-" :: c :: s)) with ("-" :: c :: s).
    change (read_sign ("-" :: c :: s)) with (true, c :: s).
    unfold read_mantissa. rewrite Hread. cbn [read_exponent skip_space].
    rewrite Nat.add_0_r, Hn. reflexivity.
Qed.

Lemma str_replace_class_plain (s : string) :
  Forall (fun c => in_class c = false) (list_ascii_of_string s) ->
  str_replace_class s = s.
Proof.
  induction s as [| c s IH]; [reflexivity |].
  cbn. intros H. apply Forall_cons in H as [Hc Hs].
  rewrite Hc. f_equal. now apply IH.
Qed.

Lemma uint_text_plain (d : Decimal.uint) :
  Forall (fun c => in_class c = false)
         (list_ascii_of_string (NilEmpty.string_of_uint d)).
Proof.
  eapply Forall_impl; [apply uint_chars_digits |].
  intros c Hc. now apply digit_is_plain.
Qed.

(** The text of a Python integer goes through the regular expression
    untouched and is read back as that integer. *)
Lemma parse_int_str (z : Z) :
  parse_number (stripped_text (CInt z)) = PInt z.
Proof.
  unfold stripped_text, astype_str, int_str, parse_number.
  destruct z as [| p | p]; [reflexivity | |].
  - cbn [Z.to_int NilZero.string_of_int].
    pose proof (DecimalPos.Unsigned.to_uint_nonnil p) as Hnil.
    pose proof (uint_text_plain (Pos.to_uint p)) as Hplain.
    pose proof (uint_chars_digits (Pos.to_uint p)) as Hdig.
    pose proof (read_digits_uint (Pos.to_uint p) 0 0%nat []) as Hread.
    rewrite app_nil_r, uint_value_to_uint in Hread. unfold uint_chars in *.
    destruct (Pos.to_uint p) eqn:E; [congruence | ..];
      cbn [NilZero.string_of_uint];
      rewrite (str_replace_class_plain _ Hplain);
      cbn [NilEmpty.string_of_uint list_ascii_of_string] in *;
      apply Forall_cons in Hdig as [Hc _];
      now rewrite (proj1 (xstrtod_digits _ _ _ _ Hc Hread)).
  - cbn [Z.to_int NilZero.string_of_int].
    pose proof (DecimalPos.Unsigned.to_uint_nonnil p) as Hnil.
    pose proof (uint_text_plain (Pos.to_uint p)) as Hplain.
    pose proof (uint_chars_digits (Pos.to_uint p)) as Hdig.
    pose proof (read_digits_uint (Pos.to_uint p) 0 0%nat []) as Hread.
    rewrite app_nil_r, uint_value_to_uint in Hread. unfold uint_chars in *.
    destruct (Pos.to_uint p) eqn:E; [congruence | ..];
      cbn [NilZero.string_of_uint];
      cbn [str_replace_class]; change (in_class "-") with false; cbv iota;
      rewrite (str_replace_class_plain _ Hplain);
      cbn [NilEmpty.string_of_uint list_ascii_of_string] in *;
      apply Forall_cons in Hdig as [Hc _];
      now rewrite (proj2 (xstrtod_digits _ _ _ _ Hc Hread)).
Qed.
End numerals_parsed.

(** *** The dtype of a converted column *)

Lemma sublist_map {A B : Type} (f : A -> B) (l k : list A) :
  sublist l k -> sublist (map f l) (map f k).
Proof. induction 1; cbn; now constructor. Qed.

Lemma forallb_sublist {A : Type} (p : A -> bool) (l k : list A) :
  sublist l k -> forallb p k = true -> forallb p l = true.
Proof.
  induction 1 as [| x l k _ IH | x l k _ IH]; cbn; [easy | |].
  - rewrite !andb_true_iff. intros [Hx Hk]. auto.
  - rewrite andb_true_iff. intros [_ Hk]. auto.
Qed.

Lemma existsb_sublist {A : Type} (p : A -> bool) (l k : list A) :
  sublist l k -> existsb p l = true -> existsb p k = true.
Proof.
  induction 1 as [| x l k _ IH | x l k _ IH]; cbn; [easy | |].
  - rewrite !orb_true_iff. intros [Hx | Hl]; auto.
  - rewrite orb_true_iff. auto.
Qed.

Lemma integer_column_sublist (ps' ps : list parsed) :
  sublist ps' ps -> integer_column ps = true -> integer_column ps' = true.
Proof.
  intros Hsub. unfold integer_column. rewrite !andb_true_iff, !negb_true_iff.
  intros [Hfits Hmix]. split; [now apply (forallb_sublist _ _ _ Hsub) |].
  apply not_true_iff_false. intros Hboth. apply andb_true_iff in Hboth as [Ha Hb].
  apply (existsb_sublist _ _ _ Hsub) in Ha, Hb. rewrite Ha, Hb in Hmix. discriminate.
Qed.

Lemma cell_parsed_as_integer (p : parsed) : cell_parsed (as_integer p) = p.
Proof. now destruct p. Qed.

Lemma as_integer_cell_parsed (c : cell) :
  is_int c = true -> as_integer (cell_parsed c) = c.
Proof. now destruct c. Qed.

Lemma as_float_not_int (p : parsed) : is_int (as_float p) = false.
Proof. now destruct p. Qed.

(** An integer cell comes out of [to_numeric] only when the whole column
    is an integer column. *)
Lemma to_numeric_int_branch (texts : list string) (c : cell) :
  In c (to_numeric texts) -> is_int c = true ->
  integer_column (map parse_number texts) = true
  /\ map cell_parsed (to_numeric texts) = map parse_number texts.
Proof.
  unfold to_numeric. destruct (integer_column (map parse_number texts)) eqn:E.
  - intros _ _. split; [reflexivity |].
    rewrite map_map. erewrite map_ext; [apply map_id |].
    intros p. apply cell_parsed_as_integer.
  - rewrite in_map_iff. intros (p & <- & _) Hint.
    now rewrite as_float_not_int in Hint.
Qed.

(** Each tracked column of the cleaned table is cut out of a converted
    column. *)
Lemma clean_data_column (df : list SheetRow) (col : value_column) :
  sublist (map (get_col col) (clean_data df))
          (to_numeric (map (fun r => stripped_text (get_col col r)) (dropna_all df))).
Proof.
  rewrite clean_data_filter.
  destruct col; cbn [get_col];
    [rewrite <- normalized_Valor_2024 | rewrite <- normalized_Valor_2025];
    apply sublist_map, sublist_List_filter.
Qed.

Lemma clean_data_integer_column (df : list SheetRow) (col : value_column) :
  forallb (fun r => is_int (get_col col r)) (clean_data df) = true ->
  integer_column (map (fun r => cell_parsed (get_col col r)) (clean_data df)) = true.
Proof.
  intros Hint. pose proof (clean_data_column df col) as Hsub.
  destruct (clean_data df) as [| r out] eqn:E; [reflexivity |].
  assert (Hr : In (get_col col r)
                 (to_numeric (map (fun r => stripped_text (get_col col r)) (dropna_all df)))).
  { apply list_elem_of_In. eapply elem_of_sublist; [| exact Hsub].
    cbn. left. }
  cbn [forallb] in Hint. apply andb_true_iff in Hint as [Hr_int _].
  destruct (to_numeric_int_branch _ _ Hr Hr_int) as [Hcol Hparsed].
  apply (sublist_map cell_parsed) in Hsub. rewrite map_map, Hparsed in Hsub.
  exact (integer_column_sublist _ _ Hsub Hcol).
Qed.

Lemma assign_column_same (col : value_column) (df : list SheetRow) :
  assign_column col (map (get_col col) df) df = df.
Proof.
  unfold assign_column. induction df as [| r df IH]; [reflexivity |].
  cbn. now rewrite set_get_same, IH.
Qed.

(** Converting a column of integers in range gives the column back. *)
Lemma convert_integer_column (df : list SheetRow) (col : value_column) :
  forallb (fun r => is_int (get_col col r)) df = true ->
  integer_column (map (fun r => cell_parsed (get_col col r)) df) = true ->
  convert_column df col = df.
Proof.
  intros Hint Hcol. unfold convert_column.
  assert (Hps : map parse_number (map (fun r => stripped_text (get_col col r)) df)
                = map (fun r => cell_parsed (get_col col r)) df).
  { rewrite map_map. apply map_ext_in. intros r Hr.
    rewrite forallb_forall in Hint. specialize (Hint r Hr).
    destruct (get_col col r); try discriminate. apply parse_int_str. }
  unfold to_numeric. rewrite Hps, Hcol.
  replace (map as_integer (map (fun r => cell_parsed (get_col col r)) df))
    with (map (get_col col) df); [apply assign_column_same |].
  rewrite map_map. apply map_ext_in. intros r Hr.
  rewrite forallb_forall in Hint. symmetry. now apply as_integer_cell_parsed, Hint.
Qed.

Lemma List_filter_all {A : Type} (p : A -> bool) (l : list A) :
  forallb p l = true -> List.filter p l = l.
Proof.
  induction l as [| x l IH]; [reflexivity |].
  cbn. intros [-> Hl]%andb_true_iff. now rewrite IH.
Qed.

Lemma forallb_List_filter {A : Type} (p : A -> bool) (l : list A) :
  forallb p (List.filter p l) = true.
Proof.
  induction l as [| x l IH]; [reflexivity |].
  cbn. destruct (p x) eqn:E; [cbn; now rewrite E |]. assumption.
Qed.


(** *** The regular expression *)

Lemma str_replace_class_filter (s : string) :
  list_ascii_of_string (str_replace_class s)
  = List.filter (fun c => negb (in_class c)) (list_ascii_of_string s).
Proof.
  induction s as [| c s IH]; [reflexivity |].
  cbn. destruct (in_class c); cbn; now rewrite IH.
Qed.

Lemma str_replace_class_app (s1 s2 : string) :
  str_replace_class (s1 ++ s2)%string
  = (str_replace_class s1 ++ str_replace_class s2)%string.
Proof.
  induction s1 as [| c s1 IH]; [reflexivity |].
  cbn. destruct (in_class c); cbn; now rewrite IH.
Qed.

Lemma str_replace_class_deletes (c : ascii) (s1 s2 : string) :
  in_class c = true ->
  str_replace_class (s1 ++ String c s2)%string = str_replace_class (s1 ++ s2)%string.
Proof.
  intros Hc. rewrite !str_replace_class_app. cbn. now rewrite Hc.
Qed.

Lemma list_ascii_of_string_app (s1 s2 : string) :
  list_ascii_of_string (s1 ++ s2)%string
  = list_ascii_of_string s1 ++ list_ascii_of_string s2.
Proof.
  induction s1 as [| c s1 IH]; [reflexivity |]. cbn. now rewrite IH.
Qed.

Section scaled.
Local Open Scope Z_scope.

Lemma uint_value_shift (d : Decimal.uint) (acc : Z) :
  uint_value acc d = acc * 10 ^ Z.of_nat (Decimal.nb_digits d) + uint_value 0 d.
Proof.
  revert acc. induction d; intros acc; cbn [uint_value Decimal.nb_digits].
  1: cbn; lia.
  all: rewrite IHd, (IHd (0 * 10 + _)), Nat2Z.inj_succ, Z.pow_succ_r by lia; ring.
Qed.

Lemma uint_value_N (n : N) : uint_value 0 (N.to_uint n) = Z.of_N n.
Proof.
  rewrite uint_value_of_uint. f_equal. apply DecimalN.Unsigned.of_to.
Qed.

Lemma N_to_uint_nonnil (n : N) : N.to_uint n <> Decimal.Nil.
Proof.
  destruct n; [discriminate | apply DecimalPos.Unsigned.to_uint_nonnil].
Qed.

(** Two runs of digits with one deleted character between them are read
    as the one integer the digits spell together. *)
Lemma parse_two_runs (sep : ascii) (d1 d2 : Decimal.uint) :
  in_class sep = true -> d1 <> Decimal.Nil ->
  parse_number
    (str_replace_class
       (NilEmpty.string_of_uint d1 ++ String sep (NilEmpty.string_of_uint d2))%string)
  = PInt (uint_value 0 d1 * 10 ^ Z.of_nat (Decimal.nb_digits d2) + uint_value 0 d2).
Proof.
  intros Hsep Hnil.
  rewrite (str_replace_class_deletes sep _ _ Hsep), str_replace_class_app.
  rewrite !str_replace_class_plain by apply uint_text_plain.
  unfold parse_number. rewrite list_ascii_of_string_app.
  fold (uint_chars d1) (uint_chars d2).
  pose proof (read_digits_uint d1 0 0%nat (uint_chars d2)) as Hread.
  pose proof (read_digits_uint d2 (uint_value 0 d1) (0 + Decimal.nb_digits d1)%nat [])
    as Hread2.
  rewrite app_nil_r in Hread2. rewrite Hread2 in Hread. cbn [read_digits] in Hread.
  rewrite (uint_value_shift d2 (uint_value 0 d1)) in Hread.
  pose proof (uint_chars_digits d1) as Hdig.
  destruct d1; [congruence | ..]; unfold uint_chars in Hdig, Hread |- *;
    cbn [NilEmpty.string_of_uint list_ascii_of_string app] in *;
    apply Forall_cons in Hdig as [Hc _];
    now rewrite (proj1 (xstrtod_digits _ _ _ _ Hc Hread)).
Qed.
End scaled.

(** *** The cleaned table *)

Lemma clean_data_In (df : list SheetRow) (r : SheetRow) :
  In r (clean_data df) <->
  In r (normalized df)
  /\ isna (Valor_2024 r) = false /\ isna (Valor_2025 r) = false
  /\ eq_zero (Valor_2024 r) && eq_zero (Valor_2025 r) = false.
Proof.
  rewrite clean_data_filter, List.filter_In. unfold survives, notna, all_zero.
  cbn [forallb value_columns get_col]. rewrite andb_true_r.
  rewrite !andb_true_iff, !negb_true_iff. tauto.
Qed.

Lemma clean_data_numbers (df : list SheetRow) (r : SheetRow) :
  In r (clean_data df) ->
  is_number (Valor_2024 r) = true /\ is_number (Valor_2025 r) = true.
Proof.
  rewrite clean_data_In. intros (Hr & H24 & H25 & _).
  destruct (normalized_number_or_nan df r Hr) as [N24 N25].
  rewrite H24, orb_false_r in N24. rewrite H25, orb_false_r in N25. now split.
Qed.

Lemma numeric_row_is_Some (r : SheetRow) :
  is_number (Valor_2024 r) = true -> is_number (Valor_2025 r) = true ->
  is_Some (numeric_row r).
Proof.
  unfold numeric_row. destruct (Valor_2024 r), (Valor_2025 r); try discriminate;
    intros _ _; cbn; eauto.
Qed.

Lemma numeric_frame_clean_data (df : list SheetRow) :
  is_Some (numeric_frame (clean_data df)).
Proof.
  unfold numeric_frame. apply mapM_is_Some_2, Forall_forall.
  intros r Hr%list_elem_of_In%clean_data_numbers. cbn.
  now apply numeric_row_is_Some.
Qed.

Lemma to_numeric_coerces (texts : list string) (i : nat) (s : string) :
  texts !! i = Some s ->
  xstrtod (list_ascii_of_string s) = None ->
  to_numeric texts !! i = Some CNaN.
Proof.
  intros Hs Hx. unfold to_numeric.
  assert (Hp : map parse_number texts !! i = Some PNaN).
  { rewrite lookup_map, Hs. cbn. unfold parse_number. now rewrite Hx. }
  destruct (integer_column _); now rewrite lookup_map, Hp.
Qed.

(** C4, as the code has it.  [clean_data] first drops exactly the rows
    whose every field is null; it then replaces the two tracked cells of
    each remaining row by their normalized values, keeping every row, its
    position and its other fields; of the normalized rows it drops exactly
    those with a null tracked value and those whose tracked values are all
    zero.  The surviving rows are the normalized rows, in their original
    relative order, and their untracked fields are those of the input. *)
Theorem row_filter_characterisation (df : list SheetRow) :
  (forall r, In r (dropna_all df) <-> In r df /\ forallb isna (row_cells r) = false)
  /\ sublist (dropna_all df) df
  /\ length (normalized df) = length (dropna_all df)
  /\ map untracked (normalized df) = map untracked (dropna_all df)
  /\ map Valor_2024 (normalized df)
     = to_numeric (map (fun r => stripped_text (Valor_2024 r)) (dropna_all df))
  /\ map Valor_2025 (normalized df)
     = to_numeric (map (fun r => stripped_text (Valor_2025 r)) (dropna_all df))
  /\ clean_data df = List.filter survives (normalized df)
  /\ (forall r, In r (clean_data df) <->
        In r (normalized df)
        /\ isna (Valor_2024 r) = false /\ isna (Valor_2025 r) = false
        /\ eq_zero (Valor_2024 r) && eq_zero (Valor_2025 r) = false)
  /\ sublist (clean_data df) (normalized df)
  /\ sublist (map untracked (clean_data df)) (map untracked df).
Proof.
  split.
  { intros r. unfold dropna_all. rewrite List.filter_In, negb_true_iff. tauto. }
  split; [apply sublist_List_filter |].
  split; [apply length_normalized |].
  split; [apply normalized_untracked |].
  split; [apply normalized_Valor_2024 |].
  split; [apply normalized_Valor_2025 |].
  split; [apply clean_data_filter |].
  split; [apply clean_data_In |].
  split; [rewrite clean_data_filter; apply sublist_List_filter |].
  transitivity (map untracked (dropna_all df)).
  - rewrite <- normalized_untracked, clean_data_filter.
    apply sublist_map, sublist_List_filter.
  - apply sublist_map, sublist_List_filter.
Qed.


(** C10. The normalizer deletes every [.] and [,] from the text of a cell
    before parsing: a text and the same text without one of its
    separators are parsed alike, and digits, a separator, digits are read
    as the one integer that the digits spell together, which is the
    decimal number scaled by ten to the number of digits after the
    separator.  A cell holding the float 20.5 (text "20.5") is normalized
    to 205, and the text "1,5" to 15. *)
Theorem separators_are_deleted :
  (forall s1 s2 : string,
     str_replace_class (s1 ++ String "." s2)%string
     = str_replace_class (s1 ++ s2)%string)
  /\ (forall s1 s2 : string,
        str_replace_class (s1 ++ String "," s2)%string
        = str_replace_class (s1 ++ s2)%string)
  /\ (forall (n : N) (d : Decimal.uint),
        parse_number
          (str_replace_class
             (NilEmpty.string_of_uint (N.to_uint n)
              ++ String "." (NilEmpty.string_of_uint d))%string)
        = PInt (Z.of_N n * 10 ^ Z.of_nat (Decimal.nb_digits d) + uint_value 0 d))
  /\ (forall (n : N) (d : Decimal.uint),
        parse_number
          (str_replace_class
             (NilEmpty.string_of_uint (N.to_uint n)
              ++ String "," (NilEmpty.string_of_uint d))%string)
        = PInt (Z.of_N n * 10 ^ Z.of_nat (Decimal.nb_digits d) + uint_value 0 d))
  /\ astype_str (CFloat 205 (-1)) = "20.5"%string
  /\ to_numeric [stripped_text (CFloat 205 (-1))] = [CInt 205]
  /\ to_numeric [stripped_text (CStr "1,5")] = [CInt 15].
Proof.
  split; [intros; now apply str_replace_class_deletes |].
  split; [intros; now apply str_replace_class_deletes |].
  split; [intros n d; rewrite <- uint_value_N;
          now apply parse_two_runs; [| apply N_to_uint_nonnil] |].
  split; [intros n d; rewrite <- uint_value_N;
          now apply parse_two_runs; [| apply N_to_uint_nonnil] |].
  repeat split; reflexivity.
Qed.

(** ** The properties on the sample tables *)

(** The scenario of the design document: A sits on the boundary 20 and is
    ModerateGrowth, B has a zero prior value and the percentage 0, C is
    HighDecline. *)
Example scenario_classification :
  (Classificacao <$> calculate_differences
     [number_row "A" 100 120; number_row "B" 0 50; number_row "C" 200 100])
  = [ModerateGrowth; Stable; HighDecline].
Proof. reflexivity. Qed.

(** A row with prior 0 and current 0 is dropped, and so is a fully blank
    row. *)
Example clean_data_sheet_integers :
  clean_data sheet_integers
  = [sheet_row "Vendas" (CInt 100) (CInt 120);
     sheet_row "Custos" (CInt (-200)) (CInt (-100))].
Proof. reflexivity. Qed.

(** Of two rows with the greatest percentage the first is reported, and
    likewise for the least. *)
Example table_ties_extremes :
  (max_growth_account <$> get_summary_statistics table_ties) = Some (CStr "B")
  /\ (max_decline_account <$> get_summary_statistics table_ties) = Some (CStr "A").
Proof. split; reflexivity. Qed.

(** C3, as stated, fails: given the empty table the Summary Aggregator
    signals nothing.  Its body ends normally, with empty account names
    and NaN extremes, and that summary is what the caller gets. *)
Lemma summary_of_empty_table_is_returned :
  (forall e : exn, summary_body [] <> Raise e)
  /\ (max_growth_account <$> get_summary_statistics []) = Some (CStr "")
  /\ (max_growth_percentage <$> get_summary_statistics []) = Some None
  /\ (max_decline_account <$> get_summary_statistics []) = Some (CStr "")
  /\ (max_decline_percentage <$> get_summary_statistics []) = Some None.
Proof.
  split; [intros e; rewrite summary_body_empty; discriminate |].
  repeat split; reflexivity.
Qed.

Lemma empty_result_aborts_run_on_sheet_zero :
  clean_data sheet_zero = []
  /\ (exists msg,
        run_analysis (fun _ => true) (fun _ => true) (Some sheet_zero)
        = ([LogError (ValueError msg)], false))
  /\ get_summary_statistics [] =
     Some {| total_accounts := 0; total_2024 := 0; total_2025 := 0;
             total_difference := 0; average_growth := None;
             positive_variations := 0; negative_variations := 0;
             stable_variations := 0;
             max_growth_account := CStr ""; max_growth_percentage := None;
             max_decline_account := CStr ""; max_decline_percentage := None |}.
Proof.
  split; [reflexivity |].
  apply (empty_result_aborts_run (fun _ => true) (fun _ => true) sheet_zero).
  reflexivity.
Defined.

(** C4, as stated, fails: the surviving row of [sheet_currency] does not
    appear unchanged.  Its prior value went in as the text "R$ 1.000" and
    comes out as the integer 1000, so the output is no sublist of the
    input. *)
Lemma surviving_row_is_rewritten :
  clean_data sheet_currency = [sheet_row "Vendas" (CInt 1000) (CInt 1200)]
  /\ ~ sublist (clean_data sheet_currency) sheet_currency.
Proof.
  split; [reflexivity |].
  change (clean_data sheet_currency)
    with [sheet_row "Vendas" (CInt 1000) (CInt 1200)].
  rewrite singleton_sublist_l. unfold sheet_currency.
  rewrite list_elem_of_singleton. discriminate.
Qed.




(** ** Further properties of the pipeline *)

(** *** Percentages and bands *)

Lemma percentage_sign_pos (d p : Q) :
  0 < p ->
  (0 < d / p * 100 <-> 0 < d) /\ (d / p * 100 < 0 <-> d < 0).
Proof.
  intros Hp. unfold Qdiv. pose proof (Qinv_lt_0_compat p Hp) as Hi.
  set (i := / p) in *. split; split; intros H; nra.
Qed.

Lemma percentage_sign_neg (d p : Q) :
  p < 0 ->
  (0 < d / p * 100 <-> d < 0) /\ (d / p * 100 < 0 <-> 0 < d).
Proof.
  intros Hp.
  assert (E : d / p * 100 == - (d / (- p) * 100)).
  { field. lra. }
  rewrite E. destruct (percentage_sign_pos d (- p)) as [[A B] [C D]]; [lra |].
  set (x := d / - p * 100) in *. split; split; intros H.
  - apply C. lra.
  - pose proof (D H). lra.
  - apply A. lra.
  - pose proof (B H). lra.
Qed.

Lemma differences_of_row_band (r : Row) :
  Classificacao (differences_of_row r)
  = _classify_variation (Diferenca_pct (differences_of_row r)).
Proof. reflexivity. Qed.

Lemma zero_prior_band (r : Row) :
  prior r == 0 -> Classificacao (differences_of_row r) = Stable.
Proof.
  intros H. now rewrite differences_of_row_band, differences_of_row_pct_zero.
Qed.


(** X2. A row whose prior value is 0 gets the percentage 0 and the band
    Stable whatever its current value, while its absolute difference is
    the current value itself: with a positive current value it passes the
    test the summary counts positive variations with. *)
Theorem zero_prior_is_stable (r : Row) :
  prior r == 0 ->
  let d := differences_of_row r in
  Diferenca_pct d = 0
  /\ Classificacao d = Stable
  /\ Diferenca_RS d == current r
  /\ (0 < current r -> Qlt_bool 0 (Diferenca_RS d) = true).
Proof.
  intros H0 d.
  assert (Hpct : Diferenca_pct d = 0) by now apply differences_of_row_pct_zero.
  split; [assumption |].
  split; [now apply zero_prior_band |].
  assert (Hd : Diferenca_RS d == current r) by (unfold d; cbn; lra).
  split; [assumption |].
  intros Hc. apply Qlt_bool_iff. lra.
Qed.

Lemma zero_prior_is_stable_witness :
  prior (number_row "B" 0 50) == 0
  /\ Classificacao (differences_of_row (number_row "B" 0 50)) = Stable.
Proof.
  split; [reflexivity |].
  apply (zero_prior_is_stable (number_row "B" 0 50)). reflexivity.
Defined.

(** X3. The classifier is monotone: a greater percentage never gets a
    lower band. *)
Theorem classify_variation_monotone (p q : Q) :
  p <= q ->
  (band_rank (_classify_variation p) <= band_rank (_classify_variation q))%nat.
Proof.
  intros Hpq. unfold _classify_variation.
  repeat match goal with
         | |- context [Qlt_bool ?t ?x] => case_lt t x
         end;
    cbn; first [lia | exfalso; lra].
Qed.

Lemma classify_variation_monotone_witness :
  5 <= 20
  /\ (band_rank (_classify_variation 5) <= band_rank (_classify_variation 20))%nat.
Proof.
  split; [lra |]. apply (classify_variation_monotone 5 20). lra.
Defined.

(** *** The mean and the extremes *)

Lemma Qsum_bounds (lo hi : Q) (col : list Q) :
  (forall x, In x col -> lo <= x /\ x <= hi) ->
  inject_Z (Z.of_nat (length col)) * lo <= Qsum col
  /\ Qsum col <= inject_Z (Z.of_nat (length col)) * hi.
Proof.
  unfold Qsum. induction col as [| x col IH]; intros H.
  { cbn [length foldr]. change (inject_Z (Z.of_nat 0)) with 0. lra. }
  destruct (H x (or_introl eq_refl)) as [Hlo Hhi].
  destruct IH as [IHlo IHhi]; [intros y Hy; apply H; now right |].
  cbn [length foldr]. rewrite Nat2Z.inj_succ, <- Z.add_1_r, inject_Z_plus.
  set (n := inject_Z (Z.of_nat (length col))) in *.
  change (inject_Z 1) with 1. split; lra.
Qed.

Lemma Qmean_bounds (lo hi x : Q) (col : list Q) :
  (forall y, In y (x :: col) -> lo <= y /\ y <= hi) ->
  exists avg, Qmean (x :: col) = Some avg
              /\ lo <= avg /\ avg <= hi
              /\ avg * inject_Z (Z.of_nat (length (x :: col))) == Qsum (x :: col).
Proof.
  intros H. destruct (Qsum_bounds lo hi (x :: col) H) as [Hlo Hhi].
  set (n := inject_Z (Z.of_nat (length (x :: col)))) in *.
  assert (Hn : 0 < n).
  { unfold n. change 0 with (inject_Z 0). rewrite <- Zlt_Qlt. cbn [length]. lia. }
  exists (Qsum (x :: col) / n). split; [reflexivity |].
  split; [apply Qle_shift_div_l; [assumption | lra] |].
  split; [apply Qle_shift_div_r; [assumption | lra] |].
  field. lra.
Qed.



(** *** The pipeline as a whole *)

Lemma numeric_row_Some (r : SheetRow) (x : Row) :
  numeric_row r = Some x ->
  cells x = r
  /\ cell_number (Valor_2024 r) = Some (prior x)
  /\ cell_number (Valor_2025 r) = Some (current x).
Proof.
  unfold numeric_row.
  destruct (cell_number (Valor_2024 r)) as [p |]; [| discriminate].
  destruct (cell_number (Valor_2025 r)) as [c |]; [| discriminate].
  cbn. intros [= <-]. auto.
Qed.

Lemma numeric_frame_Some (df : list SheetRow) (rows : list Row) :
  numeric_frame df = Some rows ->
  map cells rows = df
  /\ forall x, In x rows ->
       cell_number (Valor_2024 (cells x)) = Some (prior x)
       /\ cell_number (Valor_2025 (cells x)) = Some (current x).
Proof.
  unfold numeric_frame. rewrite mapM_Some.
  induction 1 as [| r x df rows Hr _ IH]; [split; [reflexivity | intros x []] |].
  destruct (numeric_row_Some r x Hr) as (Hc & Hp & Hq). destruct IH as [IHm IHf].
  split; [cbn; now rewrite Hc, IHm |].
  intros y [<- | Hy]; [now rewrite Hc | now apply IHf].
Qed.

Lemma eq_zero_number (c : cell) (q : Q) :
  cell_number c = Some q -> (eq_zero c = true <-> q == 0).
Proof.
  destruct c as [| z | m e | s]; try discriminate; cbn; intros [= <-].
  - rewrite Z.eqb_eq. unfold Qeq. cbn. lia.
  - rewrite Z.eqb_eq. split.
    + intros ->. apply Qmult_0_l.
    + intros [H | H]%Qmult_integral.
      * unfold Qeq in H. cbn in H. lia.
      * exfalso. revert H. apply Qpower_not_0. discriminate.
Qed.


(** X6. Every row of the table that the pipeline returns carries the
    numbers of its two tracked cells, and they are never both zero.  So a
    row with a zero prior value has a non-zero absolute difference (the
    summary never counts it as stable) although its band is Stable. *)
Theorem processed_rows_are_informative
    (file : option (list SheetRow)) (df : list DerivedRow) :
  process_complete_pipeline file = Ok df ->
  forall d, In d df ->
    cell_number (Valor_2024 (cells (row d))) = Some (prior (row d))
    /\ cell_number (Valor_2025 (cells (row d))) = Some (current (row d))
    /\ ~ (prior (row d) == 0 /\ current (row d) == 0)
    /\ (prior (row d) == 0 ->
        Classificacao d = Stable /\ Qeq_bool (Diferenca_RS d) 0 = false).
Proof.
  unfold process_complete_pipeline, load_data.
  destruct file as [raw |]; [| discriminate].
  destruct (df_empty raw); [discriminate |]. cbn [mbind result_bind].
  destruct (numeric_frame (clean_data raw)) as [rows |] eqn:Hrows; [| discriminate].
  intros [= <-] d (x & <- & Hx)%in_map_iff.
  destruct (numeric_frame_Some _ _ Hrows) as [Hcells Hnum].
  destruct (Hnum x Hx) as [Hp Hc].
  assert (Hin : In (cells x) (clean_data raw))
    by (rewrite <- Hcells; now apply in_map).
  apply clean_data_In in Hin as (_ & _ & _ & Hzero).
  assert (Hboth : ~ (prior x == 0 /\ current x == 0)).
  { intros [H1 H2]. apply (eq_zero_number _ _ Hp) in H1.
    apply (eq_zero_number _ _ Hc) in H2. rewrite H1, H2 in Hzero. discriminate. }
  change (row (differences_of_row x)) with x.
  repeat split; try assumption.
  - now apply zero_prior_band.
  - apply not_true_iff_false. intros E%Qeq_bool_eq. cbn in E.
    apply Hboth. split; [assumption | lra].
Qed.

Lemma processed_rows_are_informative_witness :
  exists df,
    process_complete_pipeline (Some sheet_scenario) = Ok df
    /\ forall d, In d df ->
         cell_number (Valor_2024 (cells (row d))) = Some (prior (row d))
         /\ cell_number (Valor_2025 (cells (row d))) = Some (current (row d))
         /\ ~ (prior (row d) == 0 /\ current (row d) == 0)
         /\ (prior (row d) == 0 ->
             Classificacao d = Stable /\ Qeq_bool (Diferenca_RS d) 0 = false).
Proof.
  eexists. split; [reflexivity |].
  apply (processed_rows_are_informative (Some sheet_scenario)). reflexivity.
Defined.

(** X7. A run succeeds exactly when the pipeline returns a table that is
    not empty, whatever the export and the rendering report: the summary
    is printed, the export is attempted, the rendering is attempted after
    it even if the export failed, and the run returns [True].  A run that
    fails leaves the logged error as its only event. *)
Theorem run_analysis_outcomes
    (save_excel generate_complete_report : list DerivedRow -> bool)
    (file : option (list SheetRow)) :
  (snd (run_analysis save_excel generate_complete_report file) = true <->
   exists df, process_complete_pipeline file = Ok df /\ df <> [])
  /\ (forall df, process_complete_pipeline file = Ok df -> df <> [] ->
        run_analysis save_excel generate_complete_report file
        = ([PrintSummary (get_summary_statistics df);
            SaveExcel df (save_excel df);
            GenerateReport df (generate_complete_report df)], true))
  /\ (snd (run_analysis save_excel generate_complete_report file) = false ->
      exists e, run_analysis save_excel generate_complete_report file
                = ([LogError e], false)).
Proof.
  unfold run_analysis, run_analysis_body.
  destruct (process_complete_pipeline file) as [[| d df] | e]; cbn.
  - split; [split; [discriminate | intros (df & [= <-] & H); congruence] |].
    split; [intros df [= <-] H; congruence | eauto].
  - split; [split; [eauto with congruence | reflexivity] |].
    split; [intros ? [= <-] _; reflexivity | discriminate].
  - split; [split; [discriminate | intros (df & H & _); discriminate] |].
    split; [intros df H; discriminate | eauto].
Qed.

(** *** The cleaned table, again *)

Lemma integer_column_int64 (cs : list cell) :
  forallb is_int64 cs = true -> integer_column (map cell_parsed cs) = true.
Proof.
  intros H. unfold integer_column.
  assert (forallb fits_integer (map cell_parsed cs) = true
          /\ existsb above_int64 (map cell_parsed cs) = false) as [-> ->];
    [| reflexivity].
  induction cs as [| c cs IH]; [split; reflexivity |].
  cbn [forallb] in H. apply andb_true_iff in H as [Hc Hcs].
  destruct (IH Hcs) as [IH1 IH2]. cbn [map forallb existsb]. rewrite IH1, IH2.
  destruct c as [| z | |]; try discriminate. cbn in Hc |- *.
  unfold INT64_MIN, INT64_MAX, UINT64_MAX in *.
  apply andb_true_iff in Hc as [H1%Z.leb_le H2%Z.leb_le].
  split; [rewrite !andb_true_r; apply andb_true_iff; split; apply Z.leb_le; lia |].
  rewrite orb_false_r. apply Z.ltb_ge. lia.
Qed.

Lemma is_int64_is_int (c : cell) : is_int64 c = true -> is_int c = true.
Proof. now destruct c. Qed.

Lemma forallb_impl {A : Type} (p q : A -> bool) (l : list A) :
  (forall x, p x = true -> q x = true) ->
  forallb p l = true -> forallb q l = true.
Proof.
  intros Hpq. rewrite !forallb_forall. auto.
Qed.



Lemma to_numeric_all_int (texts : list string) :
  integer_column (map parse_number texts) = true ->
  forallb is_int (to_numeric texts) = true.
Proof.
  intros H. unfold to_numeric. rewrite H.
  unfold integer_column in H. apply andb_true_iff in H as [Hfits _].
  rewrite forallb_forall in *. intros c (p & <- & Hp)%in_map_iff.
  specialize (Hfits p Hp). now destruct p.
Qed.

(** X9. In the cleaned table each tracked column has one type: either
    every cell of the column holds an integer or every cell holds a
    float. *)
Theorem tracked_columns_are_homogeneous (df : list SheetRow) (col : value_column) :
  forallb is_int (map (get_col col) (clean_data df)) = true
  \/ forallb is_float (map (get_col col) (clean_data df)) = true.
Proof.
  pose proof (clean_data_column df col) as Hsub.
  destruct (existsb is_int (map (get_col col) (clean_data df))) eqn:E.
  - left. apply existsb_exists in E as (c & Hc & Hint).
    assert (Hin : In c (to_numeric
                          (map (fun r => stripped_text (get_col col r)) (dropna_all df))))
      by (apply list_elem_of_In; eapply elem_of_sublist;
          [apply list_elem_of_In; exact Hc | exact Hsub]).
    destruct (to_numeric_int_branch _ _ Hin Hint) as [Hcol _].
    exact (forallb_sublist _ _ _ Hsub (to_numeric_all_int _ Hcol)).
  - right. rewrite forallb_forall. intros c Hc.
    assert (Hnot : is_int c = false).
    { apply not_true_iff_false. intros Hint.
      assert (existsb is_int (map (get_col col) (clean_data df)) = true)
        by (apply existsb_exists; eauto).
      congruence. }
    apply in_map_iff in Hc as (r & <- & Hr).
    destruct (clean_data_numbers df r Hr) as [H24 H25].
    destruct col; cbn [get_col] in *;
      [destruct (Valor_2024 r) | destruct (Valor_2025 r)]; try discriminate;
      reflexivity.
Qed.

(** *** Formatting *)

Section formatting_facts.
Local Open Scope char_scope.
Local Open Scope Z_scope.

Lemma replace_chain (l : list ascii) :
  str_replace "X" "." (str_replace "." "," (str_replace "," "X" l))
  = map swap_char l.
Proof.
  unfold str_replace. rewrite !map_map. apply map_ext. intros c.
  unfold swap_char.
  destruct (Ascii.eqb_spec c ",") as [-> | _]; [reflexivity | cbv iota].
  destruct (Ascii.eqb_spec c ".") as [-> | _]; [reflexivity | cbv iota].
  destruct (Ascii.eqb_spec c "X") as [-> | _]; reflexivity.
Qed.

Lemma digit_swap (c : ascii) :
  is_digit c = true -> swap_char c = c /\ in_class c = false.
Proof.
  destruct c as [[] [] [] [] [] [] [] []]; vm_compute; intros H;
    first [discriminate H | split; reflexivity].
Qed.

Lemma digit_char_spec (k : Z) :
  0 <= k <= 9 ->
  is_digit (digit_char k) = true /\ digit_value (digit_char k) = k.
Proof.
  intros Hk.
  assert (k = 0 \/ k = 1 \/ k = 2 \/ k = 3 \/ k = 4 \/ k = 5 \/ k = 6 \/ k = 7
          \/ k = 8 \/ k = 9) as H by lia.
  repeat destruct H as [-> | H]; try subst k; split; reflexivity.
Qed.

Lemma digits_uint (n : Z) :
  digits n = uint_chars (N.to_uint (Z.to_N n)).
Proof.
  unfold digits, uint_chars. pose proof (N_to_uint_nonnil (Z.to_N n)) as H.
  now destruct (N.to_uint (Z.to_N n)).
Qed.

Lemma digits_are_digits (n : Z) :
  Forall (fun c => is_digit c = true) (digits n).
Proof. rewrite digits_uint. apply uint_chars_digits. Qed.

Lemma digits_nonempty (n : Z) : digits n <> [].
Proof.
  rewrite digits_uint. unfold uint_chars.
  pose proof (N_to_uint_nonnil (Z.to_N n)) as H.
  now destruct (N.to_uint (Z.to_N n)).
Qed.

(** Reading the digits of [n] and two more digits gives [n * 100] plus
    the two. *)
Lemma read_digits_fixed2 (n a b : Z) :
  0 <= n -> 0 <= a <= 9 -> 0 <= b <= 9 ->
  exists k, read_digits 0 0%nat (digits n ++ [digit_char a; digit_char b])
            = (n * 100 + a * 10 + b, k, []).
Proof.
  intros Hn Ha Hb. rewrite digits_uint, read_digits_uint, uint_value_N, Z2N.id by exact Hn.
  destruct (digit_char_spec a Ha) as [Da Va]. destruct (digit_char_spec b Hb) as [Db Vb].
  cbn [read_digits]. rewrite Da, Db, Va, Vb. eexists. f_equal. f_equal. lia.
Qed.

Lemma strip_group_rev (k : nat) (s : list ascii) :
  Forall (fun c => is_digit c = true) s ->
  List.filter (fun c => negb (in_class c)) (map swap_char (group_rev k s)) = s.
Proof.
  intros H. revert k. induction H as [| c s Hc _ IH]; intros k; [reflexivity |].
  destruct (digit_swap c Hc) as [Hs Hcl].
  destruct k; cbn [group_rev map List.filter].
  - change (swap_char ",") with ".". change (in_class ".") with true.
    cbn [negb]. rewrite Hs, Hcl. cbn [negb]. now rewrite IH.
  - rewrite Hs, Hcl. cbn [negb]. now rewrite IH.
Qed.

Lemma strip_group3 (ds : list ascii) :
  Forall (fun c => is_digit c = true) ds ->
  List.filter (fun c => negb (in_class c)) (map swap_char (group3 ds)) = ds.
Proof.
  intros H. unfold group3. rewrite map_rev, List.filter_rev, strip_group_rev.
  - apply rev_involutive.
  - apply List.Forall_rev. exact H.
Qed.

Lemma strip_plain (s : list ascii) :
  Forall (fun c => is_digit c = true) s ->
  List.filter (fun c => negb (in_class c)) (map swap_char s) = s.
Proof.
  induction 1 as [| c s Hc _ IH]; [reflexivity |].
  destruct (digit_swap c Hc) as [Hs Hcl]. cbn. now rewrite Hs, Hcl, IH.
Qed.

Lemma round_half_even_nonneg (x : Q) : (0 <= x)%Q -> 0 <= round_half_even x.
Proof.
  intros Hx. unfold round_half_even.
  assert (0 <= Qfloor x) by (change 0 with (Qfloor 0); now apply Qfloor_resp_le).
  repeat destruct (Qlt_bool _ _); try destruct (Z.even _); lia.
Qed.

Lemma cents_nonneg (q : Q) : 0 <= cents q.
Proof.
  apply round_half_even_nonneg. pose proof (Qabs_nonneg q). lra.
Qed.

Lemma round_half_even_Z (x : Q) (k : Z) : (x == inject_Z k)%Q -> round_half_even x = k.
Proof.
  intros Hx. unfold round_half_even.
  assert (Hf : Qfloor x = k) by (rewrite Hx; apply Qfloor_Z).
  rewrite Hf.
  assert (Hlt : Qlt_bool (x - inject_Z k) (1 # 2) = true) by (apply Qlt_bool_iff; lra).
  now rewrite Hlt.
Qed.

Lemma cents_inject_Z (z : Z) : cents (inject_Z z) = Z.abs z * 100.
Proof.
  unfold cents. apply round_half_even_Z.
  rewrite inject_Z_mult. apply Qmult_comp; [| reflexivity].
  unfold Qabs, inject_Z, Qeq. cbn. lia.
Qed.

(** What is left of a formatted amount once the normalizer has deleted
    its class of characters. *)
Lemma strip_format_currency (v : cell) (q : Q) :
  cell_number v = Some q ->
  list_ascii_of_string (str_replace_class (format_currency v "R$"))
  = (if Qlt_bool q 0 then ["-"] else [])
    ++ digits (cents q / 100)
    ++ [digit_char ((cents q mod 100) / 10); digit_char ((cents q mod 100) mod 10)].
Proof.
  intros Hv.
  assert (Hfmt : format_2f true v = Ok (fixed2 true q))
    by (destruct v; try discriminate; cbn in Hv |- *; now injection Hv as <-).
  unfold format_currency. rewrite Hfmt, replace_chain, str_replace_class_filter.
  rewrite list_ascii_of_string_of_list_ascii. unfold fixed2.
  destruct (digit_char_spec ((cents q mod 100) / 10)) as [D1 _];
    [Z.div_mod_to_equations; lia |].
  destruct (digit_char_spec ((cents q mod 100) mod 10)) as [D2 _];
    [Z.div_mod_to_equations; lia |].
  destruct (digit_swap _ D1) as [S1 C1]. destruct (digit_swap _ D2) as [S2 C2].
  rewrite !map_app, !List.filter_app.
  rewrite (strip_group3 _ (digits_are_digits _)).
  cbn [list_ascii_of_string map List.filter app].
  change (in_class (swap_char "R")) with true.
  change (in_class (swap_char "$")) with true.
  change (in_class (swap_char " ")) with true.
  change (in_class (swap_char ".")) with true.
  rewrite S1, S2, C1, C2. cbn [negb app].
  destruct (Qlt_bool q 0); reflexivity.
Qed.
End formatting_facts.

Section formatting_properties.
Local Open Scope char_scope.
Local Open Scope Z_scope.

Lemma parse_formatted_currency (v : cell) (q : Q) :
  cell_number v = Some q ->
  parse_number (str_replace_class (format_currency v "R$"))
  = PInt (signed (Qlt_bool q 0) (cents q)).
Proof.
  intros Hv. unfold parse_number. rewrite (strip_format_currency v q Hv).
  set (n := cents q). assert (Hn : 0 <= n) by apply cents_nonneg.
  destruct (read_digits_fixed2 (n / 100) ((n mod 100) / 10) ((n mod 100) mod 10))
    as [k Hread]; try (Z.div_mod_to_equations; lia).
  replace (n / 100 * 100 + n mod 100 / 10 * 10 + (n mod 100) mod 10) with n in Hread
    by (Z.div_mod_to_equations; lia).
  pose proof (digits_are_digits (n / 100)) as Hdig.
  pose proof (digits_nonempty (n / 100)) as Hne.
  destruct (digits (n / 100)) as [| c s]; [congruence |].
  apply Forall_cons in Hdig as [Hc _]. cbn [app] in Hread.
  destruct (xstrtod_digits _ _ _ _ Hc Hread) as [Hpos Hneg].
  destruct (Qlt_bool q 0); cbn [app signed]; [now rewrite Hneg | now rewrite Hpos].
Qed.


Lemma swap_char_fixed (c : ascii) :
  swap_char c = c <-> c <> "," /\ c <> "." /\ c <> "X".
Proof.
  unfold swap_char.
  destruct (Ascii.eqb_spec c ",") as [-> | H1];
    [split; [discriminate | intros (H & _); congruence] |].
  destruct (Ascii.eqb_spec c ".") as [-> | H2];
    [split; [discriminate | intros (_ & H & _); congruence] |].
  destruct (Ascii.eqb_spec c "X") as [-> | H3];
    [split; [discriminate | intros (_ & _ & H); congruence] |].
  tauto.
Qed.

Lemma map_swap_char_fixed (s : list ascii) :
  map swap_char s = s <-> forall c, In c s -> c <> "," /\ c <> "." /\ c <> "X".
Proof.
  induction s as [| c s IH]; [split; [intros _ c [] | reflexivity] |].
  cbn [map]. split.
  - intros [= Hc Hs] c' [<- | Hc'].
    + now apply swap_char_fixed.
    + now apply IH.
  - intros H. f_equal.
    + apply swap_char_fixed, H. now left.
    + apply IH. intros c' Hc'. apply H. now right.
Qed.

End formatting_properties.

(** *** The top-ten sheets *)

Section sorting.

Variable later : Q -> Q -> bool.
Variable before : Q -> Q -> Prop.
Hypothesis before_trans : forall x y z, before x y -> before y z -> before x z.
Hypothesis later_false : forall x y, later x y = false -> before x y.
Hypothesis later_true : forall x y, later x y = true -> before y x.

Lemma insert_by_Permutation (x : Q) (l : list Q) :
  Permutation (insert_by later x l) (x :: l).
Proof.
  induction l as [| y l IH]; [reflexivity |].
  cbn. destruct (later x y); [| reflexivity].
  rewrite IH. apply perm_swap.
Qed.

Lemma sort_by_Permutation (col : list Q) : Permutation (sort_by later col) col.
Proof.
  unfold sort_by. induction col as [| x col IH]; [reflexivity |].
  cbn [foldr]. rewrite insert_by_Permutation. now constructor.
Qed.

Lemma insert_by_sorted (x : Q) (l : list Q) :
  StronglySorted before l -> StronglySorted before (insert_by later x l).
Proof.
  induction 1 as [| y l Hl IH Hy]; [repeat constructor |].
  cbn. destruct (later x y) eqn:E.
  - constructor; [assumption |].
    apply List.Forall_forall. intros z Hz.
    apply (Permutation_in _ (insert_by_Permutation x l)) in Hz as [<- | Hz].
    + now apply later_true.
    + rewrite List.Forall_forall in Hy. now apply Hy.
  - apply later_false in E. constructor; [now constructor |].
    constructor; [assumption |].
    apply List.Forall_forall. intros z Hz. rewrite List.Forall_forall in Hy.
    eapply before_trans; [exact E | now apply Hy].
Qed.

Lemma sort_by_sorted (col : list Q) : StronglySorted before (sort_by later col).
Proof.
  unfold sort_by. induction col as [| x col IH]; [constructor |].
  cbn [foldr]. now apply insert_by_sorted.
Qed.

Lemma sorted_app_before (l1 l2 : list Q) :
  StronglySorted before (l1 ++ l2) ->
  forall x y, In x l1 -> In y l2 -> before x y.
Proof.
  induction l1 as [| a l1 IH]; [intros _ x y [] |].
  cbn. intros H x y [<- | Hx] Hy; inversion_clear H as [| ? ? Hs Ha].
  - rewrite List.Forall_forall in Ha. apply Ha, in_or_app. now right.
  - now apply IH.
Qed.

Lemma sorted_lookup_before (l : list Q) (i j : nat) (x y : Q) :
  StronglySorted before l -> (i < j)%nat ->
  l !! i = Some x -> l !! j = Some y -> before x y.
Proof.
  intros Hs. revert i j. induction Hs as [| a l Hl IH Ha]; intros i j Hij Hi Hj;
    [discriminate |].
  destruct j as [| j]; [lia |]. cbn in Hj.
  destruct i as [| i]; cbn in Hi.
  - injection Hi as <-. rewrite List.Forall_forall in Ha.
    apply Ha, list_elem_of_In, list_elem_of_lookup. eauto.
  - apply (IH i j); [lia | assumption ..].
Qed.

(** The first [n] values of the sorted column: they are in order, and
    with the values left out they make up the column; no value left out
    comes before a value kept. *)
Lemma take_sort_by (n : nat) (col : list Q) :
  let top := take n (sort_by later col) in
  length top = Nat.min n (length col)
  /\ (forall i j x y, (i < j)%nat -> top !! i = Some x -> top !! j = Some y ->
        before x y)
  /\ exists others,
       Permutation (top ++ others) col
       /\ forall x y, In x top -> In y others -> before x y.
Proof.
  cbv zeta. pose proof (sort_by_sorted col) as Hs.
  pose proof (sort_by_Permutation col) as Hp.
  split; [rewrite length_take, (Permutation_length Hp); reflexivity |].
  rewrite <- (take_drop n (sort_by later col)) in Hs, Hp.
  split.
  - intros i j x y Hij Hi Hj.
    apply (sorted_lookup_before (take n (sort_by later col) ++ drop n (sort_by later col))
             i j); try assumption.
    + now apply lookup_app_l_Some.
    + now apply lookup_app_l_Some.
  - exists (drop n (sort_by later col)). split; [exact Hp |].
    now apply sorted_app_before.
Qed.

End sorting.

Lemma nlargest_values_spec (n : nat) (col : list Q) :
  let top := nlargest_values n col in
  length top = Nat.min n (length col)
  /\ (forall i j x y, (i < j)%nat -> top !! i = Some x -> top !! j = Some y -> y <= x)
  /\ exists others,
       Permutation (top ++ others) col
       /\ forall x y, In x top -> In y others -> y <= x.
Proof.
  apply (take_sort_by (fun x y => Qlt_bool x y) (fun x y => y <= x)).
  - intros x y z Hxy Hyz. lra.
  - intros x y. apply Qlt_bool_false_iff.
  - intros x y H%Qlt_bool_iff. lra.
Qed.

Lemma nsmallest_values_spec (n : nat) (col : list Q) :
  let bottom := nsmallest_values n col in
  length bottom = Nat.min n (length col)
  /\ (forall i j x y, (i < j)%nat -> bottom !! i = Some x -> bottom !! j = Some y ->
        x <= y)
  /\ exists others,
       Permutation (bottom ++ others) col
       /\ forall x y, In x bottom -> In y others -> x <= y.
Proof.
  apply (take_sort_by (fun x y => Qlt_bool y x) (fun x y => x <= y)).
  - intros x y z Hxy Hyz. lra.
  - intros x y. apply Qlt_bool_false_iff.
  - intros x y H%Qlt_bool_iff. lra.
Qed.

(** X12. The sheet [Top_Crescimento] lists the percentages of ten rows
    (of all rows when the table has fewer) in descending order, the sheet
    [Top_Declinio] those of ten rows in ascending order; together with
    the percentages left out they make up the column, and no percentage
    left out is greater (resp. smaller) than one that is listed. *)
Theorem top_sheets_select_the_extremes (df : list DerivedRow) :
  let col := map Diferenca_pct df in
  (length (top_positive_pct df) = Nat.min 10 (length df)
   /\ (forall i j x y, (i < j)%nat ->
         top_positive_pct df !! i = Some x -> top_positive_pct df !! j = Some y ->
         y <= x)
   /\ exists others,
        Permutation (top_positive_pct df ++ others) col
        /\ forall x y, In x (top_positive_pct df) -> In y others -> y <= x)
  /\ (length (top_negative_pct df) = Nat.min 10 (length df)
      /\ (forall i j x y, (i < j)%nat ->
            top_negative_pct df !! i = Some x -> top_negative_pct df !! j = Some y ->
            x <= y)
      /\ exists others,
           Permutation (top_negative_pct df ++ others) col
           /\ forall x y, In x (top_negative_pct df) -> In y others -> x <= y).
Proof.
  cbv zeta. unfold top_positive_pct, top_negative_pct.
  pose proof (nlargest_values_spec 10 (map Diferenca_pct df)) as Hl.
  pose proof (nsmallest_values_spec 10 (map Diferenca_pct df)) as Hs.
  cbv zeta in Hl, Hs. rewrite length_map in Hl, Hs. split; assumption.
Qed.

(** The head of a selection meets the extreme of the column. *)
Lemma selection_head (before : Q -> Q -> Prop) (top others col : list Q) (v : Q) :
  (forall x, before x x) ->
  (forall i j x y, (i < j)%nat -> top !! i = Some x -> top !! j = Some y -> before x y) ->
  Permutation (top ++ others) col ->
  (forall x y, In x top -> In y others -> before x y) ->
  In v col -> (forall y, In y col -> before v y) ->
  top <> [] ->
  exists g rest, top = g :: rest /\ before g v /\ before v g.
Proof.
  intros Hrefl Hsorted Hperm Hout Hv Hext Hne.
  destruct top as [| g rest]; [congruence |]. exists g, rest.
  split; [reflexivity |]. split.
  - apply (Permutation_in _ (Permutation_sym Hperm)) in Hv.
    apply in_app_or in Hv as [[<- | Hv] | Hv].
    + apply Hrefl.
    + apply list_elem_of_In, list_elem_of_lookup in Hv as [j Hj].
      apply (Hsorted 0%nat (S j)); [lia | reflexivity | exact Hj].
    + apply Hout; [now left | assumption].
  - apply Hext. apply (Permutation_in _ Hperm), in_or_app. left. now left.
Qed.



(** *** Validation of a frame *)

(** X14. [validate_dataframe] returns [True] exactly when the frame has
    a column and a row and every required column is among its columns; in
    every other case it raises [ValueError], and it never returns
    [False].  An empty frame is reported as empty even when required
    columns are missing too. *)
Theorem validate_dataframe_outcomes
    (columns : list string) (n_rows : nat) (required_columns : list string) :
  (validate_dataframe columns n_rows required_columns = Ok true <->
   columns <> [] /\ n_rows <> 0%nat /\ required_columns ⊆ columns)
  /\ validate_dataframe columns n_rows required_columns <> Ok false
  /\ (forall e, validate_dataframe columns n_rows required_columns = Raise e ->
        exists msg, e = ValueError msg)
  /\ (columns = [] \/ n_rows = 0%nat ->
      validate_dataframe columns n_rows required_columns
      = Raise (ValueError "DataFrame está vazio")).
Proof.
  unfold validate_dataframe.
  destruct columns as [| c columns].
  { cbn. split; [split; [discriminate | intros (H & _); now contradiction H] |].
    split; [discriminate |]. split; [intros e [= <-]; eauto | reflexivity]. }
  destruct n_rows as [| n].
  { cbn. split; [split; [discriminate | intros (_ & H & _); now contradiction H] |].
    split; [discriminate |]. split; [intros e [= <-]; eauto | reflexivity]. }
  cbn [df_empty orb Nat.eqb].
  set (missing := (list_to_set required_columns ∖ list_to_set (c :: columns)
                   : listset string)).
  assert (Hmiss : listset_car missing = [] <-> required_columns ⊆ c :: columns).
  { split.
    - intros Hnil x Hx. destruct (decide (x ∈ c :: columns)) as [| Hnot]; [assumption |].
      assert (Hin : x ∈ missing)
        by (apply elem_of_difference; split;
            [now apply elem_of_list_to_set
            | intros ?%elem_of_list_to_set; contradiction]).
      unfold elem_of, listset_elem_of in Hin. rewrite Hnil in Hin.
      now apply not_elem_of_nil in Hin.
    - intros Hsub. destruct (listset_car missing) as [| x l] eqn:E; [reflexivity |].
      assert (Hin : x ∈ missing)
        by (unfold elem_of, listset_elem_of; rewrite E; left).
      apply elem_of_difference in Hin as [Hreq%elem_of_list_to_set Hnot].
      exfalso. apply Hnot, elem_of_list_to_set, Hsub, Hreq. }
  destruct (listset_car missing) as [| x l] eqn:E; cbn [df_empty negb].
  - split; [split; [intros _; repeat split; try discriminate; now apply Hmiss
                   | reflexivity] |].
    split; [discriminate |]. split; [discriminate |].
    intros [H | H]; discriminate.
  - split; [split; [discriminate | intros (_ & _ & Hsub%Hmiss); discriminate] |].
    split; [discriminate |]. split; [intros e [= <-]; eauto |].
    intros [H | H]; discriminate.
Qed.

(** *** Formatted percentages *)

Section percentages.
Local Open Scope char_scope.
Local Open Scope Z_scope.

(** Digits followed by a percent sign are no numeral, with or without a
    minus sign in front. *)
Lemma xstrtod_percent (c : ascii) (s : list ascii) (v : Z) (n : nat) :
  is_digit c = true ->
  read_digits 0 0%nat (c :: s) = (v, n, ["%"]) ->
  xstrtod (c :: s) = None /\ xstrtod ("-" :: c :: s) = None.
Proof.
  intros Hc Hread.
  destruct (digit_is_plain c Hc) as (Hsp & _ & Hminus & Hplus).
  assert (Hn : (n =? 0)%nat = false).
  { apply Nat.eqb_neq. pose proof (read_digits_count s (0 * 10 + digit_value c) 1) as Hk.
    cbn [read_digits] in Hread. rewrite Hc in Hread. rewrite Hread in Hk.
    cbn in Hk. lia. }
  split; unfold xstrtod.
  - cbn [skip_space]. rewrite Hsp. cbn [read_sign]. rewrite Hminus, Hplus.
    unfold read_mantissa. rewrite Hread.
    change (Ascii.eqb "%" ".") with false. cbv iota.
    rewrite Nat.add_0_r, Hn. reflexivity.
  - change (skip_space ("-" :: c :: s)) with ("-" :: c :: s).
    change (read_sign ("-" :: c :: s)) with (true, c :: s).
    unfold read_mantissa. rewrite Hread.
    change (Ascii.eqb "%" ".") with false. cbv iota.
    rewrite Nat.add_0_r, Hn. reflexivity.
Qed.

Lemma parse_fixed2_percent (q : Q) :
  parse_number (str_replace_class (string_of_list_ascii (fixed2 false q ++ ["%"])))
  = PNaN.
Proof.
  unfold parse_number. rewrite str_replace_class_filter.
  rewrite list_ascii_of_string_of_list_ascii. unfold fixed2.
  set (n := cents q). assert (Hn : 0 <= n) by apply cents_nonneg.
  destruct (digit_char_spec ((n mod 100) / 10)) as [D1 V1];
    [Z.div_mod_to_equations; lia |].
  destruct (digit_char_spec ((n mod 100) mod 10)) as [D2 V2];
    [Z.div_mod_to_equations; lia |].
  pose proof (digits_are_digits (n / 100)) as Hdig.
  pose proof (digits_nonempty (n / 100)) as Hne.
  assert (Hplain : List.filter (fun c => negb (in_class c)) (digits (n / 100))
                   = digits (n / 100)).
  { apply List_filter_all, forallb_forall. intros c Hc.
    rewrite List.Forall_forall in Hdig.
    now rewrite (proj1 (proj2 (digit_is_plain c (Hdig c Hc)))). }
  assert (Hread : exists v k,
             read_digits 0 0%nat
               (digits (n / 100)
                ++ [digit_char ((n mod 100) / 10); digit_char ((n mod 100) mod 10); "%"])
             = (v, k, ["%"])).
  { rewrite digits_uint, read_digits_uint. cbn [read_digits].
    rewrite D1, D2. change (is_digit "%") with false. cbv iota. eauto. }
  destruct Hread as (v & k & Hread).
  rewrite !List.filter_app, Hplain.
  cbn [List.filter app]. change (in_class ".") with true. change (in_class "%") with false.
  rewrite (proj1 (proj2 (digit_is_plain _ D1))), (proj1 (proj2 (digit_is_plain _ D2))).
  cbn [negb].
  destruct (digits (n / 100)) as [| c s]; [congruence |].
  apply Forall_cons in Hdig as [Hc _]. cbn [app] in Hread.
  destruct (xstrtod_percent _ _ _ _ Hc Hread) as [Hpos Hneg].
  destruct (Qlt_bool q 0).
  - change (List.filter (fun c => negb (in_class c)) ["-"]) with ["-"].
    rewrite <- !app_assoc. cbn [app]. now rewrite Hneg.
  - cbn [List.filter]. rewrite <- !app_assoc. cbn [app]. now rewrite Hpos.
Qed.

(** X15. A percentage that [format_percentage] has printed is never read
    back as a number: whatever the cell held, the normalizer gives the
    null marker for its formatted text (the percent sign stays in the
    text). *)
Theorem formatted_percentage_reads_as_null (v : cell) :
  parse_number (str_replace_class (format_percentage v)) = PNaN.
Proof.
  destruct v as [| z | m e | s]; try reflexivity;
    unfold format_percentage; cbn [format_2f]; apply parse_fixed2_percent.
Qed.
End percentages.
